(** * FameEX trader adapter ([src/trade/trader_fameex.js])

    A shallow embedding of the adapter and the properties of its
    metadata cache, pair and order-code helpers, balance reader and paginated
    order retrieval.

    Modelling conventions.
    - A JavaScript value is a [value]: the JSON shapes the exchange client can
      resolve to, [undefined], and the built-in objects a property read on a
      plain object can reach.  A plain object is the list of its own
      properties in enumeration order; a read that finds no own property goes
      on to [Object.prototype], so [obj["constructor"]] is the function
      [Object] and [obj["__proto__"]] is [Object.prototype].  Of a built-in
      function the model keeps the name and the length.  Its other members,
      and the members arrays and strings inherit from [Array.prototype] and
      [String.prototype], are not part of the model: none of the property
      names the adapter reads statically is one of them, and the only key
      computed at run time that can name one is the [coin] of
      [getCurrencies], read from the snapshot, which is a plain object
      whenever the adapter has stored it.
    - A JavaScript number is a [number]: [NaN], or the rational a finite
      binary64 value stands for.  The operations that round are language
      primitives and are taken as parameters: the two conversions between
      numbers and strings ([StringToNumber], [NumberToString]) and the
      subtraction ([NumberSubtract]).  Comparisons are exact.  The two
      infinities and the negative zero are not modelled.
    - Strings are sequences of ASCII characters; [toUpperCase] acts on the
      letters a-z.
    - A [throw] is the [Throw] case of [completion]; a promise that has settled
      is an [outcome].  The exchange client is an oracle [Api]: its answer to
      a call may depend on every call issued before it, and every call the
      adapter issues is appended to a call log.  Logging through [log] has no
      effect on results and is left out. *)

From Stdlib Require Import String Ascii List ZArith QArith Bool Lia Lqa.
From Stdlib Require Import DecimalString.
Import ListNotations.

Local Open Scope list_scope.
Set Warnings "-register-all".

(** ** JavaScript values *)

Inductive number : Type :=
| NaN
| Fin (q : Q).

(** The built-in objects a read on a plain object can reach:
    [Object.prototype] itself, and built-in functions, by their [name] and
    [length]. *)
Inductive builtin : Type :=
| ObjectPrototype
| NativeFunction (name : string) (length : nat).

Inductive value : Type :=
| VUndef
| VNull
| VBool (b : bool)
| VNum (n : number)
| VStr (s : string)
| VArr (items : list value)
| VObj (props : list (string * value))
| VBuiltin (o : builtin).

Inductive error : Type :=
| TypeError
| Reason (v : value).

Inductive completion (A : Type) : Type :=
| Normal (a : A)
| Throw (e : error).

Arguments Normal {A} a.
Arguments Throw {A} e.

Definition bind {A B : Type} (c : completion A) (k : A -> completion B)
  : completion B :=
  match c with
  | Normal a => k a
  | Throw e => Throw e
  end.

Notation "x <- c ;; k" := (bind c (fun x => k))
  (at level 61, c at next level, right associativity).

(** [try { c } catch (error) { h }] *)
Definition try_catch {A : Type} (c : completion A) (h : error -> completion A)
  : completion A :=
  match c with
  | Normal a => Normal a
  | Throw e => h e
  end.

Fixpoint mapM {A B : Type} (f : A -> completion B) (l : list A)
  : completion (list B) :=
  match l with
  | [] => Normal []
  | a :: l' => b <- f a ;; bs <- mapM f l' ;; Normal (b :: bs)
  end.

(** A settled promise. *)
Inductive outcome : Type :=
| Resolved (v : value)
| Rejected (e : error).

(** [await p] inside an async function. *)
Definition await (p : outcome) : completion value :=
  match p with
  | Resolved v => Normal v
  | Rejected e => Throw e
  end.

(** The promise an async function returns for the completion of its body. *)
Definition async (c : completion value) : outcome :=
  match c with
  | Normal v => Resolved v
  | Throw e => Rejected e
  end.

(** [Promise.all] over promises that have all settled: the array of the
    values, or the rejection of a rejected member (the first one in the array;
    the adapter only logs the reason). *)
Fixpoint promise_all (ps : list outcome) : completion (list value) :=
  match ps with
  | [] => Normal []
  | p :: ps' =>
      match p, promise_all ps' with
      | Resolved v, Normal vs => Normal (v :: vs)
      | Rejected e, _ => Throw e
      | Resolved _, Throw e => Throw e
      end
  end.

Definition num_of_nat (n : nat) : number := Fin (inject_Z (Z.of_nat n)).
Definition num_of_Z (z : Z) : number := Fin (inject_Z z).

(** ToBoolean *)
Definition truthy (v : value) : bool :=
  match v with
  | VUndef | VNull => false
  | VBool b => b
  | VNum NaN => false
  | VNum (Fin q) => negb (Qeq_bool q 0)
  | VStr s => negb (String.eqb s "")
  | VArr _ | VObj _ | VBuiltin _ => true
  end.

(** [a < b] on numbers: false as soon as one side is [NaN] *)
Definition num_ltb (a b : number) : bool :=
  match a, b with
  | Fin x, Fin y => negb (Qle_bool y x)
  | _, _ => false
  end.

(** [a === b] where [a] is a number *)
Definition strict_eq_num (a : number) (v : value) : bool :=
  match a, v with
  | Fin x, VNum (Fin y) => Qeq_bool x y
  | _, _ => false
  end.

(** SameValueZero against a number, the comparison of [Array.prototype.includes] *)
Definition same_value_zero_num (a : number) (v : value) : bool :=
  match a, v with
  | Fin x, VNum (Fin y) => Qeq_bool x y
  | NaN, VNum NaN => true
  | _, _ => false
  end.

(** [codes.includes(v)] for an array of numbers *)
Definition includes (codes : list number) (v : value) : bool :=
  existsb (fun c => same_value_zero_num c v) codes.

(** Own-property lookup in an object. *)
Fixpoint lookup (k : string) (ps : list (string * value)) : option value :=
  match ps with
  | [] => None
  | (k', v) :: ps' => if String.eqb k k' then Some v else lookup k ps'
  end.

(** [obj[k] = v]: an existing property keeps its place, a new one goes last
    (JavaScript lists keys that are array indices first; the names the adapter
    assigns, uppercase symbols and pair names, are taken not to be). *)
Fixpoint assign (k : string) (v : value) (ps : list (string * value))
  : list (string * value) :=
  match ps with
  | [] => [(k, v)]
  | (k', v') :: ps' =>
      if String.eqb k k' then (k, v) :: ps' else (k', v') :: assign k v ps'
  end.

Definition keys (ps : list (string * value)) : list string := map fst ps.

Definition nat_to_string (n : nat) : string :=
  NilEmpty.string_of_uint (Nat.to_uint n).

(** An array index written canonically ("0", "7", "12"; not "07"). *)
Definition index_of_key (k : string) : option nat :=
  match NilEmpty.uint_of_string k with
  | Some u =>
      let n := Nat.of_uint u in
      if String.eqb (nat_to_string n) k then Some n else None
  | None => None
  end.

Fixpoint chars (s : string) : list value :=
  match s with
  | EmptyString => []
  | String c s' => VStr (String c EmptyString) :: chars s'
  end.

Definition or_undefined (o : option value) : value :=
  match o with
  | Some v => v
  | None => VUndef
  end.

Definition indexed (l : list value) (k : string) : value :=
  if String.eqb k "length" then VNum (num_of_nat (List.length l))
  else match index_of_key k with
       | Some i => nth i l VUndef
       | None => VUndef
       end.

(** What a plain object inherits: the members of [Object.prototype] as Node
    has them, each a function but [__proto__], an accessor that gives the
    prototype of the object it is read from. *)
Definition Object_prototype : list (string * value) :=
  [ ("constructor", VBuiltin (NativeFunction "Object" 1));
    ("__defineGetter__", VBuiltin (NativeFunction "__defineGetter__" 2));
    ("__defineSetter__", VBuiltin (NativeFunction "__defineSetter__" 2));
    ("hasOwnProperty", VBuiltin (NativeFunction "hasOwnProperty" 1));
    ("__lookupGetter__", VBuiltin (NativeFunction "__lookupGetter__" 1));
    ("__lookupSetter__", VBuiltin (NativeFunction "__lookupSetter__" 1));
    ("isPrototypeOf", VBuiltin (NativeFunction "isPrototypeOf" 1));
    ("propertyIsEnumerable",
     VBuiltin (NativeFunction "propertyIsEnumerable" 1));
    ("toString", VBuiltin (NativeFunction "toString" 0));
    ("valueOf", VBuiltin (NativeFunction "valueOf" 0));
    ("__proto__", VBuiltin ObjectPrototype);
    ("toLocaleString", VBuiltin (NativeFunction "toLocaleString" 0)) ]%string.

(** [obj[k]] for a plain object with the own properties [ps]: the own
    property named [k], else the inherited one, else [undefined]. *)
Definition member (ps : list (string * value)) (k : string) : value :=
  match lookup k ps with
  | Some v => v
  | None => or_undefined (lookup k Object_prototype)
  end.

(** [o[k]] for a built-in object.  [Object.prototype] has its members as own
    properties and no prototype of its own. *)
Definition builtin_member (o : builtin) (k : string) : value :=
  match o with
  | ObjectPrototype =>
      if String.eqb k "__proto__" then VNull
      else or_undefined (lookup k Object_prototype)
  | NativeFunction name length =>
      if String.eqb k "name" then VStr name
      else if String.eqb k "length" then VNum (num_of_nat length)
      else VUndef
  end.

(** [v[k]] and [v.k]: a TypeError on [undefined] and [null]. *)
Definition get (v : value) (k : string) : completion value :=
  match v with
  | VUndef | VNull => Throw TypeError
  | VObj ps => Normal (member ps k)
  | VArr l => Normal (indexed l k)
  | VStr s => Normal (indexed (chars s) k)
  | VBool _ | VNum _ => Normal VUndef
  | VBuiltin o => Normal (builtin_member o k)
  end.

(** [v?.k] and [v?.[k]] *)
Definition get_opt (v : value) (k : string) : completion value :=
  match v with
  | VUndef | VNull => Normal VUndef
  | _ => get v k
  end.

(** [a ?? b] *)
Definition nullish (a b : value) : value :=
  match a with
  | VUndef | VNull => b
  | _ => a
  end.

(** The keys a [for ... in] loop visits, which are also [Object.keys] of a
    value that is neither [undefined] nor [null]. *)
Definition enumerable_keys (v : value) : list string :=
  match v with
  | VObj ps => keys ps
  | VArr l => map nat_to_string (seq 0 (List.length l))
  | VStr s => map nat_to_string (seq 0 (String.length s))
  | _ => []
  end.

(** [Object.keys(v)] *)
Definition object_keys (v : value) : completion (list string) :=
  match v with
  | VUndef | VNull => Throw TypeError
  | _ => Normal (enumerable_keys v)
  end.

(** [...v] in an array literal or an argument list *)
Definition spread (v : value) : completion (list value) :=
  match v with
  | VArr l => Normal l
  | VStr s => Normal (chars s)
  | _ => Throw TypeError
  end.

(** A method of [Array.prototype] called on [v]: the receiver has it only
    when it is an array. *)
Definition as_array (v : value) : completion (list value) :=
  match v with
  | VArr l => Normal l
  | _ => Throw TypeError
  end.

Definition upper_ascii (c : ascii) : ascii :=
  let n := nat_of_ascii c in
  if andb (Nat.leb 97 n) (Nat.leb n 122) then ascii_of_nat (n - 32) else c.

Fixpoint upper (s : string) : string :=
  match s with
  | EmptyString => EmptyString
  | String c s' => String (upper_ascii c) (upper s')
  end.

(** [v.toUpperCase()]: only strings have the method. *)
Definition toUpperCase (v : value) : completion string :=
  match v with
  | VStr s => Normal (upper s)
  | _ => Throw TypeError
  end.

(** [s.split(/[\-\_\/]/)]: never empty, one token more than separators. *)
Definition is_separator (c : ascii) : bool :=
  (Ascii.eqb c "-" || Ascii.eqb c "_" || Ascii.eqb c "/")%bool.

Fixpoint split (s : string) : list string :=
  match s with
  | EmptyString => [EmptyString]
  | String c s' =>
      if is_separator c then EmptyString :: split s'
      else match split s' with
           | t :: ts => String c t :: ts
           | [] => [String c EmptyString]
           end
  end.

(** ** Constants of the module *)

Module orderStates.
Definition new : list number := [num_of_Z 1; num_of_Z 2].
Definition partiallyFilled : number := num_of_Z 3.
Definition filled : number := num_of_Z 4.
Definition cancelled : list number := [num_of_Z 5; num_of_Z 6].
Definition uncompleted : number := num_of_Z 7.
Definition completedOrCancelled : number := num_of_Z 9.
End orderStates.

Module orderStatuses.
Definition new : string := "new".
Definition partFilled : string := "part_filled".
Definition filled : string := "filled".
Definition cancelled : string := "cancelled".
Definition unknown : string := "unknown".
End orderStatuses.

Definition orderTypes : value :=
  VArr (map (fun z => VNum (num_of_Z z)) [1; 2; 3; 4; 5]%Z).

Definition orderTypesMap : list (string * value) :=
  [ ("1", VStr "limit");
    ("2", VStr "market");
    ("3", VStr "take_profit_and_stop_loss");
    ("4", VStr "tracking_order");
    ("5", VStr "maker_only") ]%string.

Module orderSides.
Definition buy : number := num_of_Z 1.
Definition sell : number := num_of_Z 2.
End orderSides.

Definition orderMaxPageSize : number := num_of_Z 500.

(** ** Helpers that need no collaborator *)

(** An element taken out of an array of strings by destructuring. *)
Definition token (o : option string) : value :=
  match o with
  | Some s => VStr s
  | None => VUndef
  end.

(** The same element inside a template literal. *)
Definition token_text (o : option string) : string :=
  match o with
  | Some s => s
  | None => "undefined"
  end.

Definition formatPairName (pair : value) : completion value :=
  pair' <- match pair with
           | VUndef | VNull => Normal VUndef
           | _ => s <- toUpperCase pair ;; Normal (VStr s)
           end ;;
  tokens <- match pair' with
            | VStr s => Normal (split s)
            | _ => Throw TypeError
            end ;;
  let coin1 := nth_error tokens 0 in
  let coin2 := nth_error tokens 1 in
  Normal (VObj
    [ ("pair", VStr (token_text coin1 ++ "/" ++ token_text coin2));
      ("pairReadable", VStr (token_text coin1 ++ "/" ++ token_text coin2));
      ("pairPlain", VStr (token_text coin1 ++ "_" ++ token_text coin2));
      ("coin1", token coin1);
      ("coin2", token coin2) ]%string).

Definition formatOrderStatus (orderState : value) : string :=
  if includes orderStates.new orderState then orderStatuses.new
  else if strict_eq_num orderStates.partiallyFilled orderState
       then orderStatuses.partFilled
  else if strict_eq_num orderStates.filled orderState
       then orderStatuses.filled
  else if includes orderStates.cancelled orderState
       then orderStatuses.cancelled
  else orderStatuses.unknown.

(** ** The exchange client

    [FameEXApi.call] lists the requests of [./api/fameex_api] the adapter
    issues, with their arguments.  A client answers a call with a settled
    promise; the answer may depend on the calls issued so far. *)

Module FameEXApi.

Inductive call : Type :=
| currencies
| currenciesWithNetwork
| markets
| getBalances
| getOrders (coin1 coin2 : value) (side : number) (types : value)
            (state : number) (pageNum : value) (pageSize : number)
| getTransactionDetails (coin1 coin2 : value) (pageNum pageSize : number)
                        (orderId : value).

Definition client : Type := list call -> call -> outcome.

End FameEXApi.

Definition calls : Type := list FameEXApi.call.

(** The fields the adapter keeps on [module.exports]: the two in-flight flags
    (absent counts as false) and the two snapshots ([undefined] until a
    refresh stores one). *)
Record exports : Type := {
  gettingCurrencies : bool;
  exchangeCurrencies : value;
  gettingMarkets : bool;
  exchangeMarkets : value
}.

Definition set_gettingCurrencies (b : bool) (m : exports) : exports :=
  {| gettingCurrencies := b;
     exchangeCurrencies := exchangeCurrencies m;
     gettingMarkets := gettingMarkets m;
     exchangeMarkets := exchangeMarkets m |}.

Definition set_exchangeCurrencies (v : value) (m : exports) : exports :=
  {| gettingCurrencies := gettingCurrencies m;
     exchangeCurrencies := v;
     gettingMarkets := gettingMarkets m;
     exchangeMarkets := exchangeMarkets m |}.

Definition set_gettingMarkets (b : bool) (m : exports) : exports :=
  {| gettingCurrencies := gettingCurrencies m;
     exchangeCurrencies := exchangeCurrencies m;
     gettingMarkets := b;
     exchangeMarkets := exchangeMarkets m |}.

Definition set_exchangeMarkets (v : value) (m : exports) : exports :=
  {| gettingCurrencies := gettingCurrencies m;
     exchangeCurrencies := exchangeCurrencies m;
     gettingMarkets := gettingMarkets m;
     exchangeMarkets := v |}.

(** What a call of [getCurrencies] or [getMarkets] hands back at once: a plain
    value, or a promise that one of its callbacks resolves later. *)
Inductive returned : Type :=
| Value (v : value)
| Promise (upstream : list outcome).

(** [reduce] with a callback that may throw. *)
Fixpoint reduce {A B : Type} (f : B -> A -> completion B) (l : list A) (acc : B)
  : completion B :=
  match l with
  | [] => Normal acc
  | a :: l' => acc' <- f acc a ;; reduce f l' acc'
  end.

(** A parameter that falls back to its default when [undefined] is passed. *)
Definition default (v d : value) : value :=
  match v with
  | VUndef => d
  | _ => v
  end.

Definition is_empty {A : Type} (l : list A) : bool :=
  match l with
  | [] => true
  | _ :: _ => false
  end.

(** ** The adapter *)

(** ** Interleaved calls and callbacks

    A caller that awaits the promise of [getCurrencies] is resumed as a job of
    its own.  The [then] (or [catch]) callback and the [finally] callback of
    one refresh are two more jobs, queued one after the other, and [resolve]
    inside [then] queues the caller before [finally] is queued: other calls of
    the adapter can run between any two of them.  [refreshing] holds the
    upstream promises of the refreshes whose [then]/[catch] has not run, that
    is, the refreshes in flight; [finishing] counts the [finally] callbacks
    still queued. *)

Record system : Type := {
  fields : exports;
  issued : calls;
  refreshing : list (list outcome);
  finishing : nat
}.

Inductive event : Type :=
| Call (coin forceUpdate : value)
| Settle (i : nat)
| Finally.

Fixpoint drop_nth {A : Type} (i : nat) (l : list A) : list A :=
  match i, l with
  | _, [] => []
  | O, _ :: l' => l'
  | S i', a :: l' => a :: drop_nth i' l'
  end.

Section Adapter.

(** Language primitives: unary [+] on a string, [String] of a number, and
    [a - b] on two numbers. *)
Variable StringToNumber : string -> number.
Variable NumberToString : number -> string.
Variable NumberSubtract : number -> number -> number.

(** [../helpers/cryptos/networks] and [utils.getPrecision]. *)
Variable networks : value.
Variable getPrecision : value -> completion value.

(** [FameEXApi()] *)
Variable fameEXApiClient : FameEXApi.client.

(** ToString, also the conversion of a computed property key. *)
Fixpoint to_string (v : value) : string :=
  match v with
  | VUndef => "undefined"
  | VNull => "null"
  | VBool true => "true"
  | VBool false => "false"
  | VNum n => NumberToString n
  | VStr s => s
  | VArr l =>
      (fix join (l : list value) : string :=
         match l with
         | [] => ""
         | x :: l' =>
             let head := match x with
                         | VUndef | VNull => ""
                         | _ => to_string x
                         end in
             match l' with
             | [] => head
             | _ :: _ => head ++ "," ++ join l'
             end
         end) l
  | VObj _ | VBuiltin ObjectPrototype => "[object Object]"
  | VBuiltin (NativeFunction name _) =>
      "function " ++ name ++ "() { [native code] }"
  end%string.

(** ToNumber, the unary [+]. *)
Definition to_number (v : value) : number :=
  match v with
  | VUndef => NaN
  | VNull => num_of_Z 0
  | VBool true => num_of_Z 1
  | VBool false => num_of_Z 0
  | VNum n => n
  | VStr s => StringToNumber s
  | VArr _ | VObj _ | VBuiltin _ => StringToNumber (to_string v)
  end.

(** [n < v] for a number [n] *)
Definition lt_num (n : number) (v : value) : bool :=
  num_ltb n (to_number v).

(** [v === s] for a string [s] *)
Definition strict_eq_str (s : string) (v : value) : bool :=
  match v with
  | VStr s' => String.eqb s s'
  | _ => false
  end.

Definition formatOrderType (orderType : value) : value :=
  let found := member orderTypesMap (to_string orderType) in
  if truthy found then found else VStr "unknown".

Definition formatNetworkName (network : value) : completion value :=
  key <- match network with
         | VUndef | VNull => Normal "undefined"%string
         | _ => toUpperCase network
         end ;;
  entry <- get networks key ;;
  code <- get_opt entry "code" ;;
  Normal (nullish code network).

(** A call of the client: the promise it returns, and the call logged. *)
Definition request (c : FameEXApi.call) (log : calls) : outcome * calls :=
  (fameEXApiClient log c, log ++ [c]).

(** *** getCurrencies *)

Definition currencyInfo_record (currency : value) (networksByCurrency : list (string * value))
  : completion (string * value) :=
  name <- get currency "name" ;;
  key <- toUpperCase name ;;
  min_withdraw <- get currency "min_withdraw" ;;
  max_withdraw <- get currency "max_withdraw" ;;
  can_withdraw <- get currency "can_withdraw" ;;
  can_deposit <- get currency "can_deposit" ;;
  id <- get currency "unified_cryptoasset_id" ;;
  Normal (key, VObj
    [ ("symbol", VStr key);
      ("name", VStr key);
      ("status", VUndef);
      ("comment", VUndef);
      ("confirmations", VUndef);
      ("withdrawalFee", VUndef);
      ("minWithdraw", VNum (to_number min_withdraw));
      ("maxWithdraw", VNum (to_number max_withdraw));
      ("logoUrl", VUndef);
      ("exchangeAddress", VUndef);
      ("decimals", VUndef);
      ("precision", VUndef);
      ("networks", or_undefined (lookup key networksByCurrency));
      ("defaultNetwork", VUndef);
      ("withdrawEnabled", can_withdraw);
      ("depositEnabled", can_deposit);
      ("id", id) ]%string).

(** The body of the [try] in the [then] callback, up to the merged [result]. *)
Definition merge_currencies (currenciesData currenciesWithNetworks : value)
  : completion (list (string * value)) :=
  currencies <- get currenciesData "data" ;;
  data <- get currenciesWithNetworks "data" ;;
  list <- get data "list" ;;
  items <- as_array list ;;
  networksByCurrency <-
    reduce (fun acc data =>
              currencyDetail <- get data "currencyDetail" ;;
              ids <- object_keys currencyDetail ;;
              currencyNetworks <- mapM formatNetworkName (map VStr ids) ;;
              currency <- get data "currency" ;;
              key <- toUpperCase currency ;;
              Normal (assign key (VArr currencyNetworks) acc))
           items [] ;;
  reduce (fun result coin =>
            currency <- get currencies coin ;;
            entry <- currencyInfo_record currency networksByCurrency ;;
            Normal (assign (fst entry) (snd entry) result))
         (enumerable_keys currencies) [].

(** The call itself: what it returns at once (for a promise, the upstream
    promises its callbacks wait for), the fields of [module.exports] and the
    call log afterwards. *)
Definition getCurrencies (coin forceUpdate : value) (m : exports) (log : calls)
  : completion (returned * exports * calls) :=
  if gettingCurrencies m then Normal (Value VUndef, m, log)
  else if (truthy (exchangeCurrencies m) && negb (truthy forceUpdate))%bool
  then
    info <- get (exchangeCurrencies m) (to_string coin) ;;
    Normal (Value info, m, log)
  else
    let m1 := set_gettingCurrencies true m in
    let (p1, log1) := request FameEXApi.currencies log in
    let (p2, log2) := request FameEXApi.currenciesWithNetwork log1 in
    Normal (Promise [p1; p2], m1, log2).

(** The [then] callback, run when both requests have resolved: the value the
    returned promise resolves to, and the fields afterwards. *)
Definition getCurrencies_then (currenciesData currenciesWithNetworks : value)
                              (m : exports) : value * exports :=
  match merge_currencies currenciesData currenciesWithNetworks with
  | Normal result =>
      let m1 := if negb (is_empty (keys result))
                then set_exchangeCurrencies (VObj result) m
                else m in
      (VObj result, set_gettingCurrencies false m1)
  | Throw _ => (VUndef, m)
  end.

(** The [catch] callback, run instead when a request has rejected. *)
Definition getCurrencies_catch (m : exports) : value * exports := (VUndef, m).

(** The [finally] callback, run after either of them. *)
Definition getCurrencies_finally (m : exports) : exports :=
  set_gettingCurrencies false m.

(** [then] or [catch], by how [Promise.all] of the upstream promises
    settled. *)
Definition getCurrencies_settled (upstream : list outcome) (m : exports)
  : value * exports :=
  match promise_all upstream with
  | Normal [currenciesData; currenciesWithNetworks] =>
      getCurrencies_then currenciesData currenciesWithNetworks m
  | _ => getCurrencies_catch m
  end.

(** A call whose callbacks all run before anything else touches the fields:
    the value the caller ends up with. *)
Definition getCurrencies_alone (coin forceUpdate : value) (m : exports)
                               (log : calls)
  : completion (value * exports * calls) :=
  r <- getCurrencies coin forceUpdate m log ;;
  match r with
  | (Value v, m1, log1) => Normal (v, m1, log1)
  | (Promise upstream, m1, log1) =>
      let (v, m2) := getCurrencies_settled upstream m1 in
      Normal (v, getCurrencies_finally m2, log1)
  end.

(** *** getMarkets *)

Definition marketInfo_record (market : value) : completion (string * value) :=
  raw <- get market "pair" ;;
  pair <- formatPairName raw ;;
  key <- get pair "pairReadable" ;;
  pairReadable <- get pair "pairReadable" ;;
  pairPlain <- get pair "pairPlain" ;;
  coin1 <- get pair "coin1" ;;
  coin2 <- get pair "coin2" ;;
  amountPrecision <- get market "amountPrecision" ;;
  pricePrecision <- get market "pricePrecision" ;;
  coin1Precision <- getPrecision amountPrecision ;;
  coin2Precision <- getPrecision pricePrecision ;;
  Normal (to_string key, VObj
    [ ("pairReadable", pairReadable);
      ("pairPlain", pairPlain);
      ("coin1", coin1);
      ("coin2", coin2);
      ("coin1Decimals", amountPrecision);
      ("coin2Decimals", pricePrecision);
      ("coin1Precision", coin1Precision);
      ("coin2Precision", coin2Precision);
      ("coin1MinAmount", VNull);
      ("coin1MaxAmount", VNull);
      ("coin2MinPrice", VNull);
      ("coin2MaxPrice", VNull);
      ("minTrade", VNull);
      ("status", VNull) ]%string).

Definition merge_markets (markets : value) : completion (list (string * value)) :=
  data <- get markets "data" ;;
  items <- as_array data ;;
  reduce (fun acc market =>
            entry <- marketInfo_record market ;;
            Normal (assign (fst entry) (snd entry) acc))
         items [].

Definition getMarkets (pair : value) (m : exports) (log : calls)
  : completion (returned * exports * calls) :=
  if gettingMarkets m then Normal (Value VUndef, m, log)
  else if truthy (exchangeMarkets m)
  then
    key <- (if truthy pair
            then coinPair <- formatPairName pair ;;
                 pairReadable <- get coinPair "pairReadable" ;;
                 Normal (to_string pairReadable)
            else Normal (to_string pair)) ;;
    info <- get (exchangeMarkets m) key ;;
    Normal (Value info, m, log)
  else
    let m1 := set_gettingMarkets true m in
    let (p, log1) := request FameEXApi.markets log in
    Normal (Promise [p], m1, log1).

Definition getMarkets_then (markets : value) (m : exports) : value * exports :=
  match merge_markets markets with
  | Normal result =>
      let m1 := if negb (is_empty (keys result))
                then set_exchangeMarkets (VObj result) m
                else m in
      (VObj result, set_gettingMarkets false m1)
  | Throw _ => (VUndef, m)
  end.

Definition getMarkets_catch (m : exports) : value * exports := (VUndef, m).

Definition getMarkets_finally (m : exports) : exports :=
  set_gettingMarkets false m.

Definition getMarkets_settled (upstream : list outcome) (m : exports)
  : value * exports :=
  match promise_all upstream with
  | Normal [markets] => getMarkets_then markets m
  | _ => getMarkets_catch m
  end.

Definition getMarkets_alone (pair : value) (m : exports) (log : calls)
  : completion (value * exports * calls) :=
  r <- getMarkets pair m log ;;
  match r with
  | (Value v, m1, log1) => Normal (v, m1, log1)
  | (Promise upstream, m1, log1) =>
      let (v, m2) := getMarkets_settled upstream m1 in
      Normal (v, getMarkets_finally m2, log1)
  end.

(** *** getBalances *)

Definition balance_record (crypto : value) : completion value :=
  currency <- get crypto "currency" ;;
  code <- toUpperCase currency ;;
  available <- get crypto "available" ;;
  hold <- get crypto "hold" ;;
  total <- get crypto "total" ;;
  Normal (VObj
    [ ("code", VStr code);
      ("free", VNum (to_number available));
      ("freezed", VNum (to_number hold));
      ("total", VNum (to_number total)) ]%string).

(** [wallet.walletType === 'spot'], the test of the first [filter] *)
Definition is_spot (wallet : value) : completion bool :=
  walletType <- get wallet "walletType" ;;
  Normal (strict_eq_str "spot" walletType).

(** [crypto.free || crypto.freezed], the test of the second [filter] *)
Definition has_funds (crypto : value) : completion bool :=
  free <- get crypto "free" ;;
  freezed <- get crypto "freezed" ;;
  Normal (truthy free || truthy freezed)%bool.

(** [filter] with a test that may throw. *)
Fixpoint filterM (f : value -> completion bool) (l : list value)
  : completion (list value) :=
  match l with
  | [] => Normal []
  | x :: l' =>
      keep <- f x ;;
      rest <- filterM f l' ;;
      Normal (if keep then x :: rest else rest)
  end.

(** The statement between the two [try] blocks. *)
Definition spot_wallet (balances : value) : completion value :=
  data <- get balances "data" ;;
  wallets <- as_array data ;;
  spot <- filterM is_spot wallets ;;
  get (nth 0 spot VUndef) "list".

Definition getBalances (nonzero : value) (log : calls) : outcome * calls :=
  let nonzero := default nonzero (VBool true) in
  let (p, log1) := request FameEXApi.getBalances log in
  (async
     match await p with
     | Throw _ => Normal VUndef
     | Normal balances =>
         spotWallet <- spot_wallet balances ;;
         try_catch
           (cryptos <- as_array spotWallet ;;
            result <- mapM balance_record cryptos ;;
            if truthy nonzero
            then kept <- filterM has_funds result ;; Normal (VArr kept)
            else Normal (VArr result))
           (fun _ => Normal VUndef)
     end,
   log1).

(** *** getOpenOrdersPage *)

(** The start of the async callback of [orders.map], up to its [await]: the
    lookup of one order is requested, unless reading its arguments throws. *)
Definition order_lookup (pair order : value) (log : calls) : outcome * calls :=
  match (coin1 <- get pair "coin1" ;;
         coin2 <- get pair "coin2" ;;
         orderId <- get order "orderId" ;;
         Normal (FameEXApi.getTransactionDetails
                   coin1 coin2 (num_of_Z 1) (num_of_Z 1) orderId)) with
  | Normal c => request c log
  | Throw e => (Rejected e, log)
  end.

Fixpoint order_lookups (pair : value) (orders : list value) (log : calls)
  : list outcome * calls :=
  match orders with
  | [] => ([], log)
  | order :: rest =>
      let (p, log1) := order_lookup pair order log in
      let (ps, log2) := order_lookups pair rest log1 in
      (p :: ps, log2)
  end.

(** The rest of the callback, once the lookup has settled. *)
Definition order_record (pair order : value) (p : outcome) : outcome :=
  async
    (response <- await p ;;
     data <- get response "data" ;;
     trades <- get data "trades" ;;
     transactionDetails <- get_opt trades "0" ;;
     orderId <- get order "orderId" ;;
     pairReadable <- get pair "pairReadable" ;;
     pairPlain <- get pair "pairPlain" ;;
     price <- get transactionDetails "price" ;;
     side <- get order "side" ;;
     orderType <- get order "orderType" ;;
     createTime <- get order "createTime" ;;
     money <- get order "money" ;;
     filledAmount <- get order "filledAmount" ;;
     state <- get order "state" ;;
     Normal (VObj
       [ ("orderId", orderId);
         ("symbol", pairReadable);
         ("symbolPlain", pairPlain);
         ("price", VNum (to_number price));
         ("side", VStr (if strict_eq_num orderSides.buy side
                        then "buy" else "sell"));
         ("type", formatOrderType orderType);
         ("timestamp", createTime);
         ("amount", VNum (to_number money));
         ("amountExecuted", VNum (to_number filledAmount));
         ("amountLeft",
          VNum (NumberSubtract (to_number filledAmount) (to_number money)));
         ("status", VStr (formatOrderStatus state)) ]%string)).

(** The orders of one answer of [getOrders], as spread into the array
    literal. *)
Definition orders_of (response : value) : completion (list value) :=
  data <- get response "data" ;;
  orders <- get data "orders" ;;
  spread orders.

(** The four queries of a page, in the order they are issued. *)
Definition page_queries (coin1 coin2 pageNum : value) : list FameEXApi.call :=
  [ FameEXApi.getOrders coin1 coin2 orderSides.buy orderTypes
      orderStates.uncompleted pageNum orderMaxPageSize;
    FameEXApi.getOrders coin1 coin2 orderSides.sell orderTypes
      orderStates.uncompleted pageNum orderMaxPageSize;
    FameEXApi.getOrders coin1 coin2 orderSides.buy orderTypes
      orderStates.completedOrCancelled pageNum orderMaxPageSize;
    FameEXApi.getOrders coin1 coin2 orderSides.sell orderTypes
      orderStates.completedOrCancelled pageNum orderMaxPageSize ].

Fixpoint requests (cs : list FameEXApi.call) (log : calls)
  : list outcome * calls :=
  match cs with
  | [] => ([], log)
  | c :: cs' =>
      let (p, log1) := request c log in
      let (ps, log2) := requests cs' log1 in
      (p :: ps, log2)
  end.

Definition getOpenOrdersPage (pair pageNum : value) (log : calls)
  : outcome * calls :=
  let pageNum := default pageNum (VNum (num_of_Z 1)) in
  match get pair "pairReadable" with
  | Throw e => (Rejected e, log)
  | Normal _ =>
      match (coin1 <- get pair "coin1" ;;
             coin2 <- get pair "coin2" ;;
             Normal (page_queries coin1 coin2 pageNum)) with
      | Throw _ => (Resolved VUndef, log)
      | Normal queries =>
          let (ps, log1) := requests queries log in
          match promise_all ps with
          | Throw _ => (Resolved VUndef, log1)
          | Normal ordersData =>
              match (lists <- mapM orders_of ordersData ;;
                     Normal (concat lists)) with
              | Throw e => (Rejected e, log1)
              | Normal orders =>
                  let (lookups, log2) := order_lookups pair orders log1 in
                  match promise_all
                          (map (fun op => order_record pair (fst op) (snd op))
                               (combine orders lookups)) with
                  | Normal result => (Resolved (VArr result), log2)
                  | Throw _ => (Resolved VUndef, log2)
                  end
              end
          end
      end
  end.

(** *** getOpenOrders *)

(** The [do ... while] loop.  [fuel] bounds the pages requested: the loop of
    the source has no bound, and [None] stands for a loop still running
    after [fuel] pages. *)
Fixpoint getOpenOrders_loop (fuel : nat) (coinPair limit : value)
                            (allOrders : list value) (pageNum : nat)
                            (log : calls) : option (outcome * calls) :=
  match fuel with
  | O => None
  | S fuel' =>
      let (p, log1) :=
        getOpenOrdersPage coinPair (VNum (num_of_nat pageNum)) log in
      match p with
      | Rejected e => Some (Rejected e, log1)
      | Resolved ordersInfo =>
          if negb (truthy ordersInfo) then Some (Resolved VUndef, log1)
          else
            match spread ordersInfo with
            | Throw e => Some (Rejected e, log1)
            | Normal items =>
                let allOrders := allOrders ++ items in
                if lt_num (num_of_nat (List.length allOrders)) limit
                then getOpenOrders_loop fuel' coinPair limit allOrders
                                        (S pageNum) log1
                else Some (Resolved (VArr allOrders), log1)
            end
      end
  end.

(** The lookup made before the loop only to read [data.total]. *)
Definition total_lookup (coinPair : value) : completion FameEXApi.call :=
  coin1 <- get coinPair "coin1" ;;
  coin2 <- get coinPair "coin2" ;;
  Normal (FameEXApi.getTransactionDetails
            coin1 coin2 (num_of_Z 1) (num_of_Z 1) VUndef).

Definition read_total (response : value) : completion value :=
  data <- get response "data" ;;
  get data "total".

Definition getOpenOrders (fuel : nat) (pair : value) (log : calls)
  : option (outcome * calls) :=
  match (coinPair <- formatPairName pair ;;
         c <- total_lookup coinPair ;;
         Normal (coinPair, c)) with
  | Throw e => Some (Rejected e, log)
  | Normal (coinPair, c) =>
      let (p, log1) := request c log in
      match (response <- await p ;; read_total response) with
      | Throw e => Some (Rejected e, log1)
      | Normal limit => getOpenOrders_loop fuel coinPair limit [] 1 log1
      end
  end.

(** *** One job of the event loop *)

(** [None] when the event cannot happen in [s] (no such refresh in flight, no
    [finally] queued), or when the call throws. *)
Definition step (e : event) (s : system) : option system :=
  match e with
  | Call coin forceUpdate =>
      match getCurrencies coin forceUpdate (fields s) (issued s) with
      | Normal (Value _, m, log) =>
          Some {| fields := m; issued := log;
                  refreshing := refreshing s; finishing := finishing s |}
      | Normal (Promise upstream, m, log) =>
          Some {| fields := m; issued := log;
                  refreshing := refreshing s ++ [upstream];
                  finishing := finishing s |}
      | Throw _ => None
      end
  | Settle i =>
      match nth_error (refreshing s) i with
      | Some upstream =>
          let (_, m) := getCurrencies_settled upstream (fields s) in
          Some {| fields := m; issued := issued s;
                  refreshing := drop_nth i (refreshing s);
                  finishing := S (finishing s) |}
      | None => None
      end
  | Finally =>
      match finishing s with
      | S n =>
          Some {| fields := getCurrencies_finally (fields s);
                  issued := issued s;
                  refreshing := refreshing s; finishing := n |}
      | O => None
      end
  end.

Fixpoint run (es : list event) (s : system) : option system :=
  match es with
  | [] => Some s
  | e :: es' =>
      match step e s with
      | Some s' => run es' s'
      | None => None
      end
  end.

End Adapter.

(** ** The rest of the returned object, and the construction of the adapter *)

Section Facade.

Variable NumberToString : number -> string.
Variable fameEXApiClient : FameEXApi.client.

(** [get markets()] and [get currencies()]: the snapshots as they are. *)
Definition get_markets (m : exports) : value := exchangeMarkets m.

Definition get_currencies (m : exports) : value := exchangeCurrencies m.

(** [marketInfo(pair)] *)
Definition marketInfo (pair : value) (m : exports) (log : calls)
  : completion (returned * exports * calls) :=
  getMarkets NumberToString fameEXApiClient pair m log.

(** [currencyInfo(coin)]: [forceUpdate] is left to its default. *)
Definition currencyInfo (coin : value) (m : exports) (log : calls)
  : completion (returned * exports * calls) :=
  getCurrencies NumberToString fameEXApiClient coin VUndef m log.

(** [features()] *)
Definition features : value :=
  VObj [ ("getMarkets", VBool true);
         ("getCurrencies", VBool true);
         ("placeMarketOrder", VBool true);
         ("allowAmountForMarketBuy", VBool false);
         ("amountForMarketOrderNecessary", VBool false);
         ("getTradingFees", VBool false);
         ("getAccountTradeVolume", VBool false);
         ("selfTradeProhibited", VBool false);
         ("getFundHistory", VBool true);
         ("getFundHistoryImplemented", VBool false);
         ("supportCoinNetworks", VBool true) ]%string.

(** The body of the exported function up to its [return]: with [loadMarket]
    (true when omitted) it calls [getCurrencies()] and [getMarkets()] and
    drops what they return.  The result lists what the two calls returned,
    for their callbacks to run later. *)
Definition initialise (loadMarket : value) (m : exports) (log : calls)
  : completion (list returned * exports * calls) :=
  if truthy (default loadMarket (VBool true))
  then
    c <- getCurrencies NumberToString fameEXApiClient VUndef VUndef m log ;;
    let '(r1, m1, log1) := c in
    k <- getMarkets NumberToString fameEXApiClient VUndef m1 log1 ;;
    let '(r2, m2, log2) := k in
    Normal ([r1; r2], m2, log2)
  else Normal ([], m, log).

End Facade.

(** ** Concrete collaborators

    Instances of the parameters, for running the adapter on examples: decimal
    literals for the two number conversions, a two-entry network table, the
    exact subtraction, the precision step of [utils.getPrecision], and clients
    that answer by the call alone. *)

Module Example.

Definition digit_value (c : ascii) : option Z :=
  let n := nat_of_ascii c in
  if (Nat.leb 48 n && Nat.leb n 57)%bool then Some (Z.of_nat (n - 48)) else None.

(** Digits read as an integer part: the value so far in [acc]. *)
Fixpoint read_digits (s : string) (acc : Z) : option (Z * string) :=
  match s with
  | EmptyString => Some (acc, EmptyString)
  | String c s' =>
      match digit_value c with
      | Some d => read_digits s' (acc * 10 + d)
      | None => Some (acc, s)
      end
  end.

(** Digits read as a fraction: numerator and denominator so far. *)
Fixpoint read_fraction (s : string) (num : Z) (den : positive)
  : option (Z * positive) :=
  match s with
  | EmptyString => Some (num, den)
  | String c s' =>
      match digit_value c with
      | Some d => read_fraction s' (num * 10 + d) (den * 10)
      | None => None
      end
  end.

Definition unsigned_literal (s : string) : number :=
  match s with
  | EmptyString => NaN
  | String "." EmptyString => NaN
  | _ =>
      match read_digits s 0 with
      | Some (i, EmptyString) => Fin (inject_Z i)
      | Some (i, String "." rest) =>
          match read_fraction rest 0 1 with
          | Some (num, den) => Fin (Qred (inject_Z i + (num # den)))%Q
          | None => NaN
          end
      | _ => NaN
      end
  end.

(** [+s] for [s] empty or a decimal literal with an optional sign. *)
Definition StringToNumber (s : string) : number :=
  match s with
  | EmptyString => Fin 0%Q
  | String "-" s' =>
      match unsigned_literal s' with
      | Fin q => Fin (- q)%Q
      | NaN => NaN
      end
  | String "+" s' => unsigned_literal s'
  | _ => unsigned_literal s
  end.

Definition Z_to_string (z : Z) : string :=
  match z with
  | Z0 => "0"
  | Zpos p => NilEmpty.string_of_uint (Pos.to_uint p)
  | Zneg p => "-" ++ NilEmpty.string_of_uint (Pos.to_uint p)
  end%string.

Fixpoint fraction_digits (fuel : nat) (r : Z) (d : Z) : string :=
  match fuel with
  | O => EmptyString
  | S fuel' =>
      if Z.eqb r 0 then EmptyString
      else String (ascii_of_nat (48 + Z.to_nat (r * 10 / d)))
                  (fraction_digits fuel' (r * 10 mod d) d)
  end.

(** [String(n)] for an integer or a short decimal fraction. *)
Definition NumberToString (n : number) : string :=
  match n with
  | NaN => "NaN"
  | Fin q =>
      let num := Qnum (Qred q) in
      let den := Zpos (Qden (Qred q)) in
      let whole := Z.quot num den in
      let rest := Z.abs (Z.rem num den) in
      if Z.eqb rest 0 then Z_to_string whole
      else ((if (Z.ltb num 0 && Z.eqb whole 0)%bool then "-" else "")
            ++ Z_to_string whole ++ "." ++ fraction_digits 20 rest den)
  end%string.

(** [a - b] where the difference needs no rounding. *)
Definition NumberSubtract (a b : number) : number :=
  match a, b with
  | Fin x, Fin y => Fin (x - y)
  | _, _ => NaN
  end.

Definition networks : value :=
  VObj [ ("TRC20", VObj [("code", VStr "TRC20"); ("name", VStr "Tron network")]);
         ("ETH", VObj [("code", VStr "ERC20"); ("name", VStr "Ethereum")]) ]%string.

(** [+(Math.pow(10, -decimals).toFixed(decimals))] for a count of decimals
    from 0 to 100; [toFixed] throws outside of it. *)
Definition getPrecision (decimals : value) : completion value :=
  match decimals with
  | VNum (Fin q) =>
      if (Z.eqb (Zpos (Qden (Qred q))) 1 && Z.leb 0 (Qnum (Qred q))
          && Z.leb (Qnum (Qred q)) 100)%bool
      then Normal (VNum (Fin (/ inject_Z (10 ^ Qnum (Qred q)))%Q))
      else Throw (Reason (VStr "RangeError"))
  | _ => Throw (Reason (VStr "RangeError"))
  end.

(** A client whose answers depend on the call only. *)
Definition answering (answers : FameEXApi.call -> outcome) : FameEXApi.client :=
  fun _ c => answers c.

Definition envelope (data : value) : value := VObj [("data", data)]%string.

Definition num (z : Z) : value := VNum (num_of_Z z).

Definition unavailable : outcome := Rejected (Reason (VStr "ETIMEDOUT")).

(** A client that rejects every call. *)
Definition refusing : FameEXApi.client := answering (fun _ => unavailable).

(** Balances: an account whose only wallet is the margin wallet. *)
Definition margin_wallet : value :=
  VObj [ ("walletType", VStr "margin");
         ("list", VArr [ VObj [ ("currency", VStr "usdt");
                                ("available", VStr "12.5");
                                ("hold", VStr "0");
                                ("total", VStr "12.5") ] ]) ]%string.

Definition margin_only : FameEXApi.client :=
  answering (fun c =>
    match c with
    | FameEXApi.getBalances => Resolved (envelope (VArr [margin_wallet]))
    | _ => unavailable
    end).

(** Catalogs: one currency with two networks, one market. *)
Definition currencies_answer : value :=
  envelope (VObj
    [ ("btc", VObj [ ("name", VStr "btc");
                     ("min_withdraw", VStr "0.001");
                     ("max_withdraw", VStr "100");
                     ("can_withdraw", VBool true);
                     ("can_deposit", VBool true);
                     ("unified_cryptoasset_id", num 1) ]) ]%string).

Definition networks_answer : value :=
  envelope (VObj
    [ ("list", VArr
        [ VObj [ ("currency", VStr "btc");
                 ("currencyDetail",
                  VObj [("eth", VObj []); ("bitcoin", VObj [])]) ] ]) ]%string).

Definition markets_answer : value :=
  envelope (VArr
    [ VObj [ ("pair", VStr "btc-usdt");
             ("amountPrecision", num 6);
             ("pricePrecision", num 2) ] ]%string).

Definition catalog : FameEXApi.client :=
  answering (fun c =>
    match c with
    | FameEXApi.currencies => Resolved currencies_answer
    | FameEXApi.currenciesWithNetwork => Resolved networks_answer
    | FameEXApi.markets => Resolved markets_answer
    | _ => unavailable
    end).


(** The snapshot [catalog] leads to. *)
Definition btc_snapshot : value :=
  VObj
    [ ("BTC", VObj
        [ ("symbol", VStr "BTC");
          ("name", VStr "BTC");
          ("status", VUndef);
          ("comment", VUndef);
          ("confirmations", VUndef);
          ("withdrawalFee", VUndef);
          ("minWithdraw", VNum (Fin (1 # 1000)));
          ("maxWithdraw", VNum (Fin (inject_Z 100)));
          ("logoUrl", VUndef);
          ("exchangeAddress", VUndef);
          ("decimals", VUndef);
          ("precision", VUndef);
          ("networks", VArr [VStr "ERC20"; VStr "bitcoin"]);
          ("defaultNetwork", VUndef);
          ("withdrawEnabled", VBool true);
          ("depositEnabled", VBool true);
          ("id", num 1) ]) ]%string.

Definition fresh : exports :=
  {| gettingCurrencies := false; exchangeCurrencies := VUndef;
     gettingMarkets := false; exchangeMarkets := VUndef |}.

Definition loaded : exports :=
  {| gettingCurrencies := false; exchangeCurrencies := btc_snapshot;
     gettingMarkets := false; exchangeMarkets := VUndef |}.

Definition idle : system :=
  {| fields := fresh; issued := []; refreshing := []; finishing := 0 |}.

(** Orders: an order of 2 with 0.5 filled, and an order book that answers the
    four queries of any page from the four lists it is given and reports
    [total] in every lookup. *)
Definition vendor_order (i : nat) : value :=
  VObj [ ("orderId", VNum (num_of_nat i));
         ("side", num 1);
         ("orderType", num 1);
         ("state", num 3);
         ("createTime", num 1700000000);
         ("money", VStr "2");
         ("filledAmount", VStr "0.5") ]%string.

Definition details_answer (total : value) : value :=
  envelope (VObj [ ("total", total);
                   ("trades", VArr [VObj [("price", VStr "101.5")]]) ]%string).

Definition order_book (uncompletedBuy uncompletedSell completedBuy
                       completedSell : list value) (total : value)
  : FameEXApi.client :=
  answering (fun c =>
    match c with
    | FameEXApi.getOrders _ _ side _ state _ _ =>
        let buy := strict_eq_num orderSides.buy (VNum side) in
        let uncompleted := strict_eq_num orderStates.uncompleted (VNum state) in
        Resolved (envelope (VObj [("orders", VArr
          (match buy, uncompleted with
           | true, true => uncompletedBuy
           | false, true => uncompletedSell
           | true, false => completedBuy
           | false, false => completedSell
           end))]%string))
    | FameEXApi.getTransactionDetails _ _ _ _ _ =>
        Resolved (details_answer total)
    | _ => unavailable
    end).

(** 500 orders on every page, 650 reported. *)
Definition crowded : FameEXApi.client :=
  order_book (map vendor_order (seq 0 500)) [] [] [] (num 650).

(** Nothing reported, yet two orders on the page. *)
Definition unreported : FameEXApi.client :=
  order_book [vendor_order 1] [] [] [vendor_order 2] (num 0).

(** One order or two in each of three parts of the page. *)
Definition mixed : FameEXApi.client :=
  order_book [vendor_order 1; vendor_order 2] [vendor_order 3] []
             [vendor_order 4] (num 4).

(** One order on page 1, five reported, and no answer for any later page. *)
Definition cut_short : FameEXApi.client :=
  answering (fun c =>
    match c with
    | FameEXApi.getOrders _ _ _ _ _ pageNum _ =>
        if strict_eq_num (num_of_Z 1) pageNum
        then order_book [vendor_order 1] [] [] [] (num 5) [] c
        else unavailable
    | FameEXApi.getTransactionDetails _ _ _ _ _ =>
        Resolved (details_answer (num 5))
    | _ => unavailable
    end).

(** Balances: a margin wallet, then the spot wallet with an empty asset, a
    free one and a held one. *)
Definition asset (currency available hold total : string) : value :=
  VObj [ ("currency", VStr currency);
         ("available", VStr available);
         ("hold", VStr hold);
         ("total", VStr total) ]%string.

Definition spot_wallet_answer : value :=
  envelope (VArr
    [ margin_wallet;
      VObj [ ("walletType", VStr "spot");
             ("list", VArr [ asset "btc" "0" "0" "0";
                             asset "usdt" "12.5" "0" "12.5";
                             asset "eth" "0" "1.5" "1.5" ]) ] ]%string).

Definition spot_account : FameEXApi.client :=
  answering (fun c =>
    match c with
    | FameEXApi.getBalances => Resolved spot_wallet_answer
    | _ => unavailable
    end).



(** Five orders reported and none on any page. *)
Definition barren : FameEXApi.client := order_book [] [] [] [] (num 5).

(** The market snapshot [catalog] leads to, and the fields once both
    snapshots are stored. *)
Definition markets_snapshot : value :=
  match merge_markets NumberToString getPrecision markets_answer with
  | Normal result => VObj result
  | Throw _ => VUndef
  end.

Definition stocked : exports :=
  {| gettingCurrencies := false; exchangeCurrencies := btc_snapshot;
     gettingMarkets := false; exchangeMarkets := markets_snapshot |}.

Definition btc_usdt : value :=
  VObj [ ("pair", VStr "BTC/USDT");
         ("pairReadable", VStr "BTC/USDT");
         ("pairPlain", VStr "BTC_USDT");
         ("coin1", VStr "BTC");
         ("coin2", VStr "USDT") ]%string.

Definition total_query : FameEXApi.call :=
  FameEXApi.getTransactionDetails (VStr "BTC") (VStr "USDT")
    (num_of_Z 1) (num_of_Z 1) VUndef.

End Example.

(** * Vocabulary of the statements *)

Close Scope Q_scope.

(** The vendor state [orderState] is the number [z]. *)
Definition is_code (z : Z) (orderState : value) : Prop :=
  exists q, orderState = VNum (Fin q) /\ (q == inject_Z z)%Q.

(** The object [formatPairName] builds from the first token and, when there is
    one, the second. *)
Definition pair_object (coin1 : string) (coin2 : option string) : value :=
  VObj [ ("pair", VStr (coin1 ++ "/" ++ token_text coin2));
         ("pairReadable", VStr (coin1 ++ "/" ++ token_text coin2));
         ("pairPlain", VStr (coin1 ++ "_" ++ token_text coin2));
         ("coin1", VStr coin1);
         ("coin2", token coin2) ]%string.

(** [r] is the record [getOpenOrdersPage] builds for the vendor order [order],
    from some answer to its lookup. *)
Definition record_of (StringToNumber : string -> number)
                     (NumberToString : number -> string)
                     (NumberSubtract : number -> number -> number)
                     (pair order r : value) : Prop :=
  exists p,
    order_record StringToNumber NumberToString NumberSubtract pair order p
    = Resolved r.

(** The amounts of the record [r] are those of the vendor order [order]:
    [amount] is its [money] and [amountExecuted] its [filledAmount], both
    coerced to numbers, and [amountLeft] is [amountExecuted - amount]. *)
Definition amounts_of (StringToNumber : string -> number)
                      (NumberToString : number -> string)
                      (NumberSubtract : number -> number -> number)
                      (order r : value) : Prop :=
  exists money filledAmount,
    get order "money" = Normal money /\
    get order "filledAmount" = Normal filledAmount /\
    get r "amount"
    = Normal (VNum (to_number StringToNumber NumberToString money)) /\
    get r "amountExecuted"
    = Normal (VNum (to_number StringToNumber NumberToString filledAmount)) /\
    get r "amountLeft"
    = Normal (VNum (NumberSubtract
                      (to_number StringToNumber NumberToString filledAmount)
                      (to_number StringToNumber NumberToString money))).

(** In the record [r], [amountLeft] is below zero when [amountExecuted] is
    below [amount]. *)
Definition negative_when_unfilled (r : value) : Prop :=
  exists amount amountExecuted amountLeft,
    get r "amount" = Normal (VNum amount) /\
    get r "amountExecuted" = Normal (VNum amountExecuted) /\
    get r "amountLeft" = Normal (VNum amountLeft) /\
    (num_ltb amountExecuted amount = true ->
     num_ltb amountLeft (num_of_Z 0) = true).

(** The subtraction gives the sign of the exact difference: a number minus a
    larger one is below zero.  (binary64 has subnormal numbers, so the
    difference of two different numbers is never rounded to zero.) *)
Definition keeps_sign (NumberSubtract : number -> number -> number) : Prop :=
  forall a b,
    num_ltb a b = true -> num_ltb (NumberSubtract a b) (num_of_Z 0) = true.

(** The page number of a call that opens a page: the query for the
    uncompleted buy orders. *)
Definition opens_page (c : FameEXApi.call) : option value :=
  match c with
  | FameEXApi.getOrders _ _ side _ state pageNum _ =>
      if (strict_eq_num orderSides.buy (VNum side)
          && strict_eq_num orderStates.uncompleted (VNum state))%bool
      then Some pageNum else None
  | _ => None
  end.

(** The pages requested in a call log, in the order of the requests. *)
Fixpoint pages_requested (log : calls) : list value :=
  match log with
  | [] => []
  | c :: log' =>
      match opens_page c with
      | Some pageNum => pageNum :: pages_requested log'
      | None => pages_requested log'
      end
  end.

Definition is_lookup (c : FameEXApi.call) : Prop :=
  match c with
  | FameEXApi.getTransactionDetails _ _ _ _ _ => True
  | _ => False
  end.

Definition page_number (k : nat) : value := VNum (num_of_nat k).

(** The number of orders gathered so far, as the loop compares it. *)
Definition count (orders : list value) : Q :=
  inject_Z (Z.of_nat (List.length orders)).

Section Pagination.

Variable StringToNumber : string -> number.
Variable NumberToString : number -> string.
Variable NumberSubtract : number -> number -> number.
Variable fameEXApiClient : FameEXApi.client.

(** Pages 1, 2, 3, ... requested one after the other, in the words of the
    specification:
    the log once pages 1 to [k] have been requested starting from [log], what
    page [k] resolves to, its orders when that is an array, and the orders of
    pages 1 to [k] put together. *)
Fixpoint log_after_pages (coinPair : value) (log : calls) (k : nat) : calls :=
  match k with
  | O => log
  | S k' =>
      snd (getOpenOrdersPage StringToNumber NumberToString NumberSubtract
             fameEXApiClient
             coinPair (page_number k) (log_after_pages coinPair log k'))
  end.

Definition page_outcome (coinPair : value) (log : calls) (k : nat) : outcome :=
  fst (getOpenOrdersPage StringToNumber NumberToString NumberSubtract
         fameEXApiClient
         coinPair (page_number k) (log_after_pages coinPair log (k - 1))).

Definition page_orders (coinPair : value) (log : calls) (k : nat) : list value :=
  match page_outcome coinPair log k with
  | Resolved (VArr orders) => orders
  | _ => []
  end.

Fixpoint accumulated (coinPair : value) (log : calls) (k : nat) : list value :=
  match k with
  | O => []
  | S k' => accumulated coinPair log k' ++ page_orders coinPair log k
  end.

End Pagination.

(** A string with a '/' in it. *)
Fixpoint has_slash (s : string) : bool :=
  match s with
  | EmptyString => false
  | String c s' => (Ascii.eqb c "/" || has_slash s')%bool
  end.

(** A string without '-', '_' or '/'. *)
Fixpoint separator_free (s : string) : bool :=
  match s with
  | EmptyString => true
  | String c s' => (negb (is_separator c) && separator_free s')%bool
  end.

(** A completion that throws nothing but a TypeError. *)
Definition only_TypeError {A : Type} (c : completion A) : Prop :=
  forall e, c = Throw e -> e = TypeError.

(** A promise that does not reject with anything but a TypeError. *)
Definition settles_quietly (p : outcome) : Prop :=
  p = Resolved VUndef \/ (exists items, p = Resolved (VArr items)) \/
  p = Rejected TypeError.

(** A record of [getBalances]. *)
Definition is_balance (r : value) : Prop :=
  exists code free freezed total,
    upper code = code /\
    r = VObj [ ("code", VStr code);
               ("free", VNum free);
               ("freezed", VNum freezed);
               ("total", VNum total) ]%string.

(** The test of the second [filter] of [getBalances], on a record. *)
Definition funded (crypto : value) : bool :=
  match has_funds crypto with
  | Normal keep => keep
  | Throw _ => false
  end.


(** Schedules in which the callbacks of a refresh run back to back: a call
    arrives, or the [then]/[catch] callback of a refresh in flight runs and
    its [finally] right after it. *)
Inductive job : Type :=
| Arrive (coin forceUpdate : value)
| Complete (i : nat).

Definition events_of_job (j : job) : list event :=
  match j with
  | Arrive coin forceUpdate => [Call coin forceUpdate]
  | Complete i => [Settle i; Finally]
  end.

Definition events_of (jobs : list job) : list event :=
  flat_map events_of_job jobs.

(** A state between two jobs of such a schedule: no [finally] is queued, at
    most one refresh is in flight, and the flag is set exactly when one is. *)
Definition at_rest (s : system) : Prop :=
  finishing s = 0 /\
  List.length (refreshing s) <= 1 /\
  (gettingCurrencies (fields s) = true <-> refreshing s <> []).

(** * Properties *)

(** ** Order states *)

Lemma is_code_includes (codes : list number) (z : Z) (v : value) :
  is_code z v -> In (num_of_Z z) codes -> includes codes v = true.
Proof.
  intros [q [-> Hq]] Hin. unfold includes. apply existsb_exists.
  exists (num_of_Z z). split; [exact Hin|]. cbn.
  apply Qeq_bool_iff. symmetry. exact Hq.
Qed.

Lemma includes_is_code (codes : list Z) (v : value) :
  includes (map num_of_Z codes) v = true -> exists z, In z codes /\ is_code z v.
Proof.
  unfold includes. intros H. apply existsb_exists in H.
  destruct H as [c [Hin Hc]]. apply in_map_iff in Hin.
  destruct Hin as [z [<- Hz]]. exists z. split; [exact Hz|].
  destruct v as [| |b|[|q]|s|l|ps|o]; cbn in Hc; try discriminate.
  exists q. split; [reflexivity|]. apply Qeq_bool_iff in Hc. symmetry. exact Hc.
Qed.

Lemma strict_eq_num_is_code (z : Z) (v : value) :
  strict_eq_num (num_of_Z z) v = true <-> is_code z v.
Proof.
  split.
  - destruct v as [| |b|[|q]|s|l|ps|o]; cbn; try discriminate.
    intros H. exists q. split; [reflexivity|].
    apply Qeq_bool_iff in H. symmetry. exact H.
  - intros [q [-> Hq]]. cbn. apply Qeq_bool_iff. symmetry. exact Hq.
Qed.

Lemma is_code_functional (z z' : Z) (v : value) :
  is_code z v -> is_code z' v -> z = z'.
Proof.
  intros [q [-> Hq]] [q' [E Hq']]. injection E as <-.
  rewrite Hq in Hq'. unfold Qeq in Hq'. cbn in Hq'. lia.
Qed.

(** C7. [formatOrderStatus] is total: the states 1 and 2 give [new], 3 gives
    [part_filled], 4 gives [filled], 5 and 6 give [cancelled], and every other
    value (the lifecycle buckets 7 and 9, numbers outside 1..6, values that
    are not numbers) gives [unknown]; the result is always one of the five
    statuses, which are pairwise different. *)
Theorem formatOrderStatus_total (orderState : value) :
  (is_code 1 orderState \/ is_code 2 orderState ->
   formatOrderStatus orderState = orderStatuses.new) /\
  (is_code 3 orderState ->
   formatOrderStatus orderState = orderStatuses.partFilled) /\
  (is_code 4 orderState ->
   formatOrderStatus orderState = orderStatuses.filled) /\
  (is_code 5 orderState \/ is_code 6 orderState ->
   formatOrderStatus orderState = orderStatuses.cancelled) /\
  ((forall z, (1 <= z <= 6)%Z -> ~ is_code z orderState) ->
   formatOrderStatus orderState = orderStatuses.unknown) /\
  formatOrderStatus (VNum orderStates.uncompleted) = orderStatuses.unknown /\
  formatOrderStatus (VNum orderStates.completedOrCancelled)
    = orderStatuses.unknown /\
  In (formatOrderStatus orderState)
     [orderStatuses.new; orderStatuses.partFilled; orderStatuses.filled;
      orderStatuses.cancelled; orderStatuses.unknown] /\
  NoDup [orderStatuses.new; orderStatuses.partFilled; orderStatuses.filled;
         orderStatuses.cancelled; orderStatuses.unknown].
Proof.
  assert (Hnew : forall z, In z [1; 2]%Z -> is_code z orderState ->
                           formatOrderStatus orderState = orderStatuses.new).
  { intros z Hz Hc. unfold formatOrderStatus.
    rewrite (is_code_includes orderStates.new z); [reflexivity|exact Hc|].
    change orderStates.new with (map num_of_Z [1; 2]%Z). now apply in_map. }
  assert (Hnot_new : forall z, ~ In z [1; 2]%Z -> is_code z orderState ->
                               includes orderStates.new orderState = false).
  { intros z Hz Hc. destruct (includes orderStates.new orderState) eqn:E;
      [|reflexivity].
    change orderStates.new with (map num_of_Z [1; 2]%Z) in E.
    apply includes_is_code in E. destruct E as [z' [Hin Hc']].
    rewrite (is_code_functional _ _ _ Hc Hc') in Hz. contradiction. }
  assert (Hnot_eq : forall z z', z <> z' -> is_code z orderState ->
                                 strict_eq_num (num_of_Z z') orderState = false).
  { intros z z' Hz Hc. destruct (strict_eq_num (num_of_Z z') orderState) eqn:E;
      [|reflexivity].
    apply strict_eq_num_is_code in E.
    elim Hz. exact (is_code_functional _ _ _ Hc E). }
  repeat split.
  - intros [H|H]; [apply (Hnew 1%Z)|apply (Hnew 2%Z)]; cbn; auto.
  - intros H. unfold formatOrderStatus.
    rewrite (Hnot_new 3%Z); [|cbn; lia|exact H].
    replace (strict_eq_num orderStates.partiallyFilled orderState) with true;
      [reflexivity|].
    symmetry. now apply (strict_eq_num_is_code 3).
  - intros H. unfold formatOrderStatus.
    rewrite (Hnot_new 4%Z); [|cbn; lia|exact H].
    change orderStates.partiallyFilled with (num_of_Z 3).
    rewrite (Hnot_eq 4%Z 3%Z); [|lia|exact H].
    replace (strict_eq_num orderStates.filled orderState) with true;
      [reflexivity|].
    symmetry. now apply (strict_eq_num_is_code 4).
  - intros H. unfold formatOrderStatus.
    assert (Hc : exists z, In z [5; 6]%Z /\ is_code z orderState).
    { destruct H as [H|H]; [exists 5%Z|exists 6%Z]; cbn; auto. }
    destruct Hc as [z [Hz Hc]].
    rewrite (Hnot_new z); [|cbn in *; lia|exact Hc].
    change orderStates.partiallyFilled with (num_of_Z 3).
    rewrite (Hnot_eq z 3%Z); [|cbn in Hz; lia|exact Hc].
    change orderStates.filled with (num_of_Z 4).
    rewrite (Hnot_eq z 4%Z); [|cbn in Hz; lia|exact Hc].
    rewrite (is_code_includes orderStates.cancelled z); [reflexivity|exact Hc|].
    change orderStates.cancelled with (map num_of_Z [5; 6]%Z). now apply in_map.
  - intros H. unfold formatOrderStatus.
    destruct (includes orderStates.new orderState) eqn:E1.
    { change orderStates.new with (map num_of_Z [1; 2]%Z) in E1.
      apply includes_is_code in E1. destruct E1 as [z [Hz Hc]].
      elim (H z); [cbn in Hz; lia|exact Hc]. }
    destruct (strict_eq_num orderStates.partiallyFilled orderState) eqn:E2.
    { apply (strict_eq_num_is_code 3) in E2. elim (H 3%Z); [lia|exact E2]. }
    destruct (strict_eq_num orderStates.filled orderState) eqn:E3.
    { apply (strict_eq_num_is_code 4) in E3. elim (H 4%Z); [lia|exact E3]. }
    destruct (includes orderStates.cancelled orderState) eqn:E4.
    { change orderStates.cancelled with (map num_of_Z [5; 6]%Z) in E4.
      apply includes_is_code in E4. destruct E4 as [z [Hz Hc]].
      elim (H z); [cbn in Hz; lia|exact Hc]. }
    reflexivity.
  - unfold formatOrderStatus.
    destruct (includes orderStates.new orderState);
      [cbn; auto|].
    destruct (strict_eq_num orderStates.partiallyFilled orderState);
      [cbn; auto|].
    destruct (strict_eq_num orderStates.filled orderState);
      [cbn; auto|].
    destruct (includes orderStates.cancelled orderState); cbn; auto 6.
  - repeat constructor; cbn; intuition discriminate.
Qed.


(** ** Pair names *)

Lemma split_not_nil (s : string) : split s <> [].
Proof.
  destruct s as [|c s]; cbn; [discriminate|].
  destruct (is_separator c); [discriminate|].
  destruct (split s); discriminate.
Qed.

(** C4, the claim as stated fails: "btc" splits into one token and "a-b-c"
    into three, and [formatPairName] returns a pair object for both. *)
Lemma formatPairName_accepts_other_token_counts :
  List.length (split (upper "btc")) = 1 /\
  formatPairName (VStr "btc") = Normal (pair_object "BTC" None) /\
  List.length (split (upper "a-b-c")) = 3 /\
  formatPairName (VStr "a-b-c") = Normal (pair_object "A" (Some "B"%string)).
Proof. repeat split. Qed.

(** C4, amended.  On every string [formatPairName] returns normally: the
    input is uppercased and split on '-', '_' and '/'; coin1 is the first
    token, coin2 the second one, or [undefined] (spelled "undefined" inside
    the pair strings) when there is none; tokens after the second are
    ignored.  With exactly two tokens they are coin1 and coin2. *)
Theorem formatPairName_on_strings (raw : string) :
  exists coin1 rest,
    split (upper raw) = coin1 :: rest /\
    formatPairName (VStr raw) = Normal (pair_object coin1 (hd_error rest)) /\
    (forall coin2, rest = [coin2] ->
       formatPairName (VStr raw) = Normal (pair_object coin1 (Some coin2))) /\
    (rest = [] -> formatPairName (VStr raw) = Normal (pair_object coin1 None)).
Proof.
  destruct (split (upper raw)) as [|coin1 rest] eqn:E.
  - elim (split_not_nil _ E).
  - exists coin1, rest.
    assert (H : formatPairName (VStr raw)
                = Normal (pair_object coin1 (hd_error rest))).
    { unfold formatPairName. cbn. rewrite E. destruct rest; reflexivity. }
    repeat split.
    + exact H.
    + intros coin2 ->. exact H.
    + intros ->. exact H.
Qed.


(** ** The adapter *)

Lemma bind_Normal {A B : Type} (c : completion A) (k : A -> completion B) (b : B) :
  bind c k = Normal b -> exists a, c = Normal a /\ k a = Normal b.
Proof. destruct c as [a|e]; cbn; [eauto|discriminate]. Qed.

Ltac bind_inv H :=
  let a := fresh "x" in
  let E := fresh "E" in
  apply bind_Normal in H; destruct H as [a [E H]].

Lemma promise_all_Forall2 (ps : list outcome) (vs : list value) :
  promise_all ps = Normal vs -> Forall2 (fun p v => p = Resolved v) ps vs.
Proof.
  revert vs. induction ps as [|p ps IH]; cbn; intros vs H.
  - injection H as <-. constructor.
  - destruct p as [v|e]; [|discriminate].
    destruct (promise_all ps) as [vs'|e]; [|discriminate].
    injection H as <-. constructor; [reflexivity|]. now apply IH.
Qed.

Lemma mapM_Forall2 {A B : Type} (f : A -> completion B) (l : list A) (r : list B) :
  mapM f l = Normal r -> Forall2 (fun a b => f a = Normal b) l r.
Proof.
  revert r. induction l as [|a l IH]; cbn; intros r H.
  - injection H as <-. constructor.
  - bind_inv H. bind_inv H. injection H as <-.
    constructor; [assumption|]. now apply IH.
Qed.

Lemma Forall2_map_l {A B C : Type} (P : B -> C -> Prop) (f : A -> B)
      (l : list A) (r : list C) :
  Forall2 P (map f l) r <-> Forall2 (fun a c => P (f a) c) l r.
Proof.
  split.
  - revert r. induction l as [|a l IH]; intros r H; inversion H; subst;
      constructor; auto.
  - induction 1; cbn; constructor; auto.
Qed.

Lemma Forall2_combine_fst {A B C : Type} (P : A -> C -> Prop)
      (l : list A) (l' : list B) (r : list C) :
  List.length l = List.length l' ->
  Forall2 (fun ab c => P (fst ab) c) (combine l l') r -> Forall2 P l r.
Proof.
  revert l' r. induction l as [|a l IH]; intros [|b l'] r Hlen H;
    cbn in *; try discriminate.
  - inversion H. constructor.
  - inversion H; subst. constructor; [assumption|].
    apply (IH l'); [now injection Hlen|assumption].
Qed.

Lemma Forall2_In_r {A B : Type} (P : A -> B -> Prop) (l : list A) (r : list B)
      (b : B) :
  Forall2 P l r -> In b r -> exists a, In a l /\ P a b.
Proof.
  induction 1 as [|a b' l r Hab _ IH]; cbn; [contradiction|].
  intros [<-|Hin].
  - exists a. auto.
  - destruct (IH Hin) as [a' [Ha' Hp]]. exists a'. auto.
Qed.

Lemma upper_ascii_idempotent (c : ascii) :
  upper_ascii (upper_ascii c) = upper_ascii c.
Proof. destruct c as [[] [] [] [] [] [] [] []]; reflexivity. Qed.

Lemma upper_idempotent (s : string) : upper (upper s) = upper s.
Proof.
  induction s as [|c s IH]; cbn; [reflexivity|].
  now rewrite upper_ascii_idempotent, IH.
Qed.

Lemma toUpperCase_upper (v : value) (s : string) :
  toUpperCase v = Normal s -> upper s = s.
Proof.
  destruct v; cbn; try discriminate.
  intros H. injection H as <-. apply upper_idempotent.
Qed.

Lemma reduce_invariant {A B : Type} (P : B -> Prop)
      (f : B -> A -> completion B) (l : list A) :
  (forall acc a acc', P acc -> f acc a = Normal acc' -> P acc') ->
  forall acc r, P acc -> reduce f l acc = Normal r -> P r.
Proof.
  intros Hstep. induction l as [|a l IH]; cbn; intros acc r Hacc H.
  - now injection H as <-.
  - bind_inv H. eapply IH; [|exact H]. eapply Hstep; eassumption.
Qed.


Lemma lookup_absent (k : string) (ps : list (string * value)) :
  ~ In k (keys ps) -> lookup k ps = None.
Proof.
  induction ps as [|[k' v] ps IH]; cbn; intros H; [reflexivity|].
  destruct (String.eqb_spec k k') as [->|_]; [tauto|]. apply IH. tauto.
Qed.

(** ** Members a plain object inherits *)

Lemma member_own (k : string) (v : value) (ps : list (string * value)) :
  lookup k ps = Some v -> member ps k = v.
Proof. unfold member. now intros ->. Qed.

Lemma member_not_own (k : string) (ps : list (string * value)) :
  lookup k ps = None -> member ps k = or_undefined (lookup k Object_prototype).
Proof. unfold member. now intros ->. Qed.

(** A name [Object.prototype] does not have is read from the own properties
    alone. *)
Lemma member_plain (k : string) (ps : list (string * value)) :
  ~ In k (keys Object_prototype) -> member ps k = or_undefined (lookup k ps).
Proof.
  intros H. unfold member. rewrite (lookup_absent _ _ H).
  now destruct (lookup k ps).
Qed.

(** Every inherited member is a built-in object, which is truthy. *)
Lemma Object_prototype_builtin (k : string) (v : value) :
  In (k, v) Object_prototype -> exists o, v = VBuiltin o.
Proof.
  cbn. intros H.
  repeat (destruct H as [H|H]; [injection H as <- <-; eauto|]).
  contradiction.
Qed.

Lemma Object_prototype_lookup (k : string) (v : value) :
  In (k, v) Object_prototype -> lookup k Object_prototype = Some v.
Proof.
  cbn. intros H.
  repeat (destruct H as [H|H]; [injection H as <- <-; reflexivity|]).
  contradiction.
Qed.

(** Every inherited name has a lowercase letter, and none has a '/'. *)
Lemma inherited_not_upper (k : string) :
  In k (keys Object_prototype) -> upper k <> k.
Proof.
  cbn. intros H.
  repeat (destruct H as [<-|H]; [discriminate|]). contradiction.
Qed.

Lemma upper_not_inherited (k : string) :
  ~ In (upper k) (keys Object_prototype).
Proof.
  intros H. apply (inherited_not_upper _ H). apply upper_idempotent.
Qed.

Lemma has_slash_app (a b : string) : has_slash (a ++ "/" ++ b) = true.
Proof.
  induction a as [|c a IH]; [reflexivity|].
  change (Ascii.eqb c "/" || has_slash (a ++ "/" ++ b) = true)%bool.
  rewrite IH. apply orb_true_r.
Qed.

Lemma slash_not_inherited (a b : string) :
  ~ In (a ++ "/" ++ b)%string (keys Object_prototype).
Proof.
  intros H.
  assert (Hno : has_slash (a ++ "/" ++ b) = false).
  { revert H. generalize (a ++ "/" ++ b)%string. intros k H. cbn in H.
    repeat (destruct H as [<-|H]; [reflexivity|]). contradiction. }
  rewrite has_slash_app in Hno. discriminate Hno.
Qed.

Section Properties.

Variable StringToNumber : string -> number.
Variable NumberToString : number -> string.
Variable NumberSubtract : number -> number -> number.
Variable networks : value.
Variable getPrecision : value -> completion value.
Variable fameEXApiClient : FameEXApi.client.

Local Abbreviation to_string := (to_string NumberToString).
Local Abbreviation to_number := (to_number StringToNumber NumberToString).
Local Abbreviation lt_num := (lt_num StringToNumber NumberToString).
Local Abbreviation formatOrderType := (formatOrderType NumberToString).
Local Abbreviation request := (request fameEXApiClient).
Local Abbreviation requests := (requests fameEXApiClient).
Local Abbreviation record_of :=
  (record_of StringToNumber NumberToString NumberSubtract).
Local Abbreviation amounts_of :=
  (amounts_of StringToNumber NumberToString NumberSubtract).
Local Abbreviation order_record :=
  (order_record StringToNumber NumberToString NumberSubtract).
Local Abbreviation order_lookup := (order_lookup fameEXApiClient).
Local Abbreviation order_lookups := (order_lookups fameEXApiClient).
Local Abbreviation getOpenOrdersPage :=
  (getOpenOrdersPage StringToNumber NumberToString NumberSubtract
     fameEXApiClient).
Local Abbreviation getOpenOrders_loop :=
  (getOpenOrders_loop StringToNumber NumberToString NumberSubtract
     fameEXApiClient).
Local Abbreviation getOpenOrders :=
  (getOpenOrders StringToNumber NumberToString NumberSubtract fameEXApiClient).
Local Abbreviation getBalances :=
  (getBalances StringToNumber NumberToString fameEXApiClient).
Local Abbreviation merge_currencies :=
  (merge_currencies StringToNumber NumberToString networks).
Local Abbreviation getCurrencies := (getCurrencies NumberToString fameEXApiClient).
Local Abbreviation getCurrencies_then :=
  (getCurrencies_then StringToNumber NumberToString networks).
Local Abbreviation getCurrencies_settled :=
  (getCurrencies_settled StringToNumber NumberToString networks).
Local Abbreviation getCurrencies_alone :=
  (getCurrencies_alone StringToNumber NumberToString networks fameEXApiClient).
Local Abbreviation merge_markets := (merge_markets NumberToString getPrecision).
Local Abbreviation getMarkets := (getMarkets NumberToString fameEXApiClient).
Local Abbreviation getMarkets_then := (getMarkets_then NumberToString getPrecision).
Local Abbreviation getMarkets_settled :=
  (getMarkets_settled NumberToString getPrecision).
Local Abbreviation getMarkets_alone :=
  (getMarkets_alone NumberToString getPrecision fameEXApiClient).
Local Abbreviation step :=
  (step StringToNumber NumberToString networks fameEXApiClient).
Local Abbreviation run :=
  (run StringToNumber NumberToString networks fameEXApiClient).

Local Abbreviation log_after_pages :=
  (log_after_pages StringToNumber NumberToString NumberSubtract
     fameEXApiClient).
Local Abbreviation page_outcome :=
  (page_outcome StringToNumber NumberToString NumberSubtract fameEXApiClient).
Local Abbreviation page_orders :=
  (page_orders StringToNumber NumberToString NumberSubtract fameEXApiClient).
Local Abbreviation accumulated :=
  (accumulated StringToNumber NumberToString NumberSubtract fameEXApiClient).

(** *** One page of orders *)

Lemma order_lookups_length (pair : value) (orders : list value) (log : calls) :
  List.length (fst (order_lookups pair orders log)) = List.length orders.
Proof.
  revert log. induction orders as [|order rest IH]; intros log; cbn.
  - reflexivity.
  - destruct (order_lookup pair order log) as [p log1].
    specialize (IH log1).
    destruct (order_lookups pair rest log1) as [ps log2]. cbn in *.
    now rewrite IH.
Qed.

(** The four queries of a page are answered one after the other. *)
Lemma requests_page_queries (coin1 coin2 pageNum : value) (log : calls) :
  let q := page_queries coin1 coin2 pageNum in
  requests q log =
    ([ fameEXApiClient log (nth 0 q FameEXApi.markets);
       fameEXApiClient (log ++ firstn 1 q) (nth 1 q FameEXApi.markets);
       fameEXApiClient (log ++ firstn 2 q) (nth 2 q FameEXApi.markets);
       fameEXApiClient (log ++ firstn 3 q) (nth 3 q FameEXApi.markets) ],
     log ++ q).
Proof.
  cbn. unfold request. cbn.
  repeat rewrite <- app_assoc. reflexivity.
Qed.

(** A page that resolves to an array: the four answers, their orders, and one
    record per order, in the order of the concatenation. *)
Lemma getOpenOrdersPage_success (pair pageNum : value) (log log' : calls)
      (result : list value) :
  getOpenOrdersPage pair pageNum log = (Resolved (VArr result), log') ->
  exists coin1 coin2 responses lists,
    get pair "coin1" = Normal coin1 /\
    get pair "coin2" = Normal coin2 /\
    fst (requests (page_queries coin1 coin2 (default pageNum (VNum (num_of_Z 1))))
                  log)
      = map Resolved responses /\
    Forall2 (fun response orders => orders_of response = Normal orders)
            responses lists /\
    Forall2 (record_of pair) (concat lists) result.
Proof.
  unfold getOpenOrdersPage.
  destruct (get pair "pairReadable") as [readable|e]; [|discriminate].
  destruct (get pair "coin1") as [coin1|e] eqn:E1; cbn [bind]; [|discriminate].
  destruct (get pair "coin2") as [coin2|e] eqn:E2; cbn [bind]; [|discriminate].
  set (q := page_queries coin1 coin2 _).
  destruct (requests q log) as [ps log1] eqn:Ereq.
  destruct (promise_all ps) as [ordersData|e] eqn:Eall; [|discriminate].
  destruct (mapM orders_of ordersData) as [lists|e] eqn:Elists;
    cbn [bind]; [|discriminate].
  pose proof (order_lookups_length pair (concat lists) log1) as Hlen.
  destruct (order_lookups pair (concat lists) log1) as [lookups log2].
  cbn [fst] in Hlen.
  destruct (promise_all (map _ _)) as [records|e] eqn:Erec; [|discriminate].
  intros H. injection H as <- <-.
  exists coin1, coin2, ordersData, lists. repeat split.
  - subst q. rewrite Ereq. cbn [fst]. apply promise_all_Forall2 in Eall.
    clear - Eall. induction Eall; cbn; [reflexivity|]. now f_equal.
  - now apply mapM_Forall2.
  - apply promise_all_Forall2 in Erec. apply Forall2_map_l in Erec.
    apply (Forall2_combine_fst _ _ lookups); [now symmetry|].
    eapply Forall2_impl; [|exact Erec].
    intros [order p] r Hr. exists p. exact Hr.
Qed.

(** The fields of a record, read back from the vendor order. *)
Lemma order_record_fields (pair order : value) (p : outcome) (r : value) :
  order_record pair order p = Resolved r ->
  exists orderId pairReadable pairPlain price side orderType createTime
         money filledAmount state,
    get order "orderId" = Normal orderId /\
    get order "side" = Normal side /\
    get order "orderType" = Normal orderType /\
    get order "createTime" = Normal createTime /\
    get order "money" = Normal money /\
    get order "filledAmount" = Normal filledAmount /\
    get order "state" = Normal state /\
    get pair "pairReadable" = Normal pairReadable /\
    get pair "pairPlain" = Normal pairPlain /\
    r = VObj
          [ ("orderId", orderId);
            ("symbol", pairReadable);
            ("symbolPlain", pairPlain);
            ("price", VNum (to_number price));
            ("side", VStr (if strict_eq_num orderSides.buy side
                           then "buy" else "sell"));
            ("type", formatOrderType orderType);
            ("timestamp", createTime);
            ("amount", VNum (to_number money));
            ("amountExecuted", VNum (to_number filledAmount));
            ("amountLeft",
             VNum (NumberSubtract (to_number filledAmount)
                                  (to_number money)));
            ("status", VStr (formatOrderStatus state)) ]%string.
Proof.
  unfold order_record. intros H.
  destruct (bind (await p) _) as [v|e] eqn:E; cbn in H; [|discriminate].
  injection H as ->.
  do 14 bind_inv E. injection E as <-.
  repeat eexists; eassumption.
Qed.

(** The exact subtraction keeps the sign. *)
Lemma exact_subtraction_keeps_sign : keeps_sign Example.NumberSubtract.
Proof.
  intros a b.
  destruct a as [|x], b as [|y]; cbn; try discriminate.
  intros H. apply negb_true_iff in H. apply negb_true_iff.
  destruct (Qle_bool (inject_Z 0) (x - y)) eqn:E; [|reflexivity].
  apply Qle_bool_iff in E.
  assert (Hle : (y <= x)%Q) by (unfold inject_Z in E; lra).
  apply Qle_bool_iff in Hle. congruence.
Qed.

(** The four answers of a page, read one by one. *)
Lemma getOpenOrdersPage_answers (pair pageNum : value) (log log' : calls)
      (result : list value) :
  getOpenOrdersPage pair pageNum log = (Resolved (VArr result), log') ->
  exists coin1 coin2 answer1 answer2 answer3 answer4
         orders1 orders2 orders3 orders4,
    let query side state :=
      FameEXApi.getOrders coin1 coin2 side orderTypes state
        (default pageNum (VNum (num_of_Z 1))) orderMaxPageSize in
    let q1 := query orderSides.buy orderStates.uncompleted in
    let q2 := query orderSides.sell orderStates.uncompleted in
    let q3 := query orderSides.buy orderStates.completedOrCancelled in
    let q4 := query orderSides.sell orderStates.completedOrCancelled in
    get pair "coin1" = Normal coin1 /\
    get pair "coin2" = Normal coin2 /\
    fameEXApiClient log q1 = Resolved answer1 /\
    fameEXApiClient (log ++ [q1]) q2 = Resolved answer2 /\
    fameEXApiClient (log ++ [q1; q2]) q3 = Resolved answer3 /\
    fameEXApiClient (log ++ [q1; q2; q3]) q4 = Resolved answer4 /\
    orders_of answer1 = Normal orders1 /\
    orders_of answer2 = Normal orders2 /\
    orders_of answer3 = Normal orders3 /\
    orders_of answer4 = Normal orders4 /\
    Forall2 (record_of pair) (orders1 ++ orders2 ++ orders3 ++ orders4) result.
Proof.
  intros Hpage.
  destruct (getOpenOrdersPage_success _ _ _ _ _ Hpage)
    as (coin1 & coin2 & responses & lists & Hc1 & Hc2 & Hreq & Hlists & Hrec).
  rewrite requests_page_queries in Hreq. cbn in Hreq.
  destruct responses as [|r1 [|r2 [|r3 [|r4 [|]]]]]; try discriminate.
  injection Hreq as H1 H2 H3 H4.
  inversion Hlists as [|? o1 ? ? Ho1 Hl1]; subst.
  inversion Hl1 as [|? o2 ? ? Ho2 Hl2]; subst.
  inversion Hl2 as [|? o3 ? ? Ho3 Hl3]; subst.
  inversion Hl3 as [|? o4 ? ? Ho4 Hl4]; subst.
  inversion Hl4; subst. cbn [concat] in Hrec. rewrite app_nil_r in Hrec.
  exists coin1, coin2, r1, r2, r3, r4, o1, o2, o3, o4.
  cbn zeta. repeat split; assumption.
Qed.

(** The amounts of a record, read back from the vendor order it was built
    for. *)
Lemma order_record_amounts (pair order r : value) :
  record_of pair order r -> amounts_of order r.
Proof.
  intros [p Hp].
  destruct (order_record_fields _ _ _ _ Hp)
    as (orderId & pairReadable & pairPlain & price & side & orderType
        & createTime & money & filledAmount & state
        & _ & _ & _ & _ & Hmoney & Hfilled & _ & _ & _ & ->).
  exists money, filledAmount.
  repeat split; try assumption; reflexivity.
Qed.

Lemma amounts_negative_when_unfilled (order r : value) :
  keeps_sign NumberSubtract -> amounts_of order r -> negative_when_unfilled r.
Proof.
  intros Hsign (money & filledAmount & _ & _ & Hamount & Hexecuted & Hleft).
  exists (to_number money), (to_number filledAmount),
         (NumberSubtract (to_number filledAmount) (to_number money)).
  repeat split; try assumption. apply Hsign.
Qed.

Lemma Forall2_Forall_r {A B : Type} (P : A -> B -> Prop) (Q : B -> Prop)
      (l : list A) (r : list B) :
  (forall a b, P a b -> Q b) -> Forall2 P l r -> Forall Q r.
Proof.
  intros H. induction 1; constructor; eauto.
Qed.

(** C8. A page that resolved to an array has one record for each order of
    the four answers of the vendor, in their order, and the amounts of each
    record are those of its order: [amount] is the vendor [money] and
    [amountExecuted] the vendor [filledAmount], both coerced to numbers, and
    [amountLeft] is [amountExecuted - amount], the subtraction the other way
    round from what the name says.  As the subtraction keeps the sign of the
    difference, [amountLeft] is below zero in every record whose
    [amountExecuted] is below its [amount]. *)
Theorem amountLeft_is_executed_minus_amount
        (pair pageNum : value) (log log' : calls) (result : list value) :
  getOpenOrdersPage pair pageNum log = (Resolved (VArr result), log') ->
  exists coin1 coin2 answer1 answer2 answer3 answer4
         orders1 orders2 orders3 orders4,
    let query side state :=
      FameEXApi.getOrders coin1 coin2 side orderTypes state
        (default pageNum (VNum (num_of_Z 1))) orderMaxPageSize in
    let q1 := query orderSides.buy orderStates.uncompleted in
    let q2 := query orderSides.sell orderStates.uncompleted in
    let q3 := query orderSides.buy orderStates.completedOrCancelled in
    let q4 := query orderSides.sell orderStates.completedOrCancelled in
    get pair "coin1" = Normal coin1 /\
    get pair "coin2" = Normal coin2 /\
    fameEXApiClient log q1 = Resolved answer1 /\
    fameEXApiClient (log ++ [q1]) q2 = Resolved answer2 /\
    fameEXApiClient (log ++ [q1; q2]) q3 = Resolved answer3 /\
    fameEXApiClient (log ++ [q1; q2; q3]) q4 = Resolved answer4 /\
    orders_of answer1 = Normal orders1 /\
    orders_of answer2 = Normal orders2 /\
    orders_of answer3 = Normal orders3 /\
    orders_of answer4 = Normal orders4 /\
    Forall2 amounts_of (orders1 ++ orders2 ++ orders3 ++ orders4) result /\
    (keeps_sign NumberSubtract -> Forall negative_when_unfilled result).
Proof.
  intros Hpage.
  destruct (getOpenOrdersPage_answers _ _ _ _ _ Hpage)
    as (coin1 & coin2 & r1 & r2 & r3 & r4 & o1 & o2 & o3 & o4 & H).
  cbn zeta in H.
  destruct H as (Hc1 & Hc2 & H1 & H2 & H3 & H4 & Ho1 & Ho2 & Ho3 & Ho4 & Hrec).
  assert (Hamounts : Forall2 amounts_of (o1 ++ o2 ++ o3 ++ o4) result).
  { eapply Forall2_impl; [|exact Hrec].
    intros order r. apply order_record_amounts. }
  exists coin1, coin2, r1, r2, r3, r4, o1, o2, o3, o4.
  cbn zeta. repeat split; try assumption.
  intros Hsign. eapply Forall2_Forall_r; [|exact Hamounts].
  intros order r. now apply amounts_negative_when_unfilled.
Qed.


(** *** The calls of a page *)

Lemma pages_requested_app (log log' : calls) :
  pages_requested (log ++ log') = pages_requested log ++ pages_requested log'.
Proof.
  induction log as [|c log IH]; cbn; [reflexivity|].
  destruct (opens_page c); cbn; now rewrite IH.
Qed.

Lemma pages_requested_lookups (log : calls) :
  Forall is_lookup log -> pages_requested log = [].
Proof.
  induction 1 as [|c log Hc _ IH]; cbn; [reflexivity|].
  destruct c; cbn in Hc; try contradiction. exact IH.
Qed.

Lemma pages_requested_queries (coin1 coin2 pageNum : value) :
  pages_requested (page_queries coin1 coin2 pageNum) = [pageNum].
Proof. reflexivity. Qed.

Lemma order_lookups_log (pair : value) (orders : list value) (log : calls) :
  exists lookups,
    snd (order_lookups pair orders log) = log ++ lookups /\
    Forall is_lookup lookups /\
    ((exists coin1, get pair "coin1" = Normal coin1) ->
     (exists coin2, get pair "coin2" = Normal coin2) ->
     Forall (fun order => exists orderId, get order "orderId" = Normal orderId)
            orders ->
     List.length lookups = List.length orders).
Proof.
  revert log. induction orders as [|order rest IH]; intros log; cbn.
  - exists []. rewrite app_nil_r. repeat split; constructor.
  - unfold order_lookup.
    destruct (get pair "coin1") as [coin1|e1] eqn:E1; cbn [bind].
    2:{ destruct (IH log) as (lookups & Hlog & Hall & _).
        destruct (order_lookups pair rest log) as [ps log2]. cbn in *.
        exists lookups. repeat split; try assumption.
        intros [c Hc]. discriminate Hc. }
    destruct (get pair "coin2") as [coin2|e2] eqn:E2; cbn [bind].
    2:{ destruct (IH log) as (lookups & Hlog & Hall & _).
        destruct (order_lookups pair rest log) as [ps log2]. cbn in *.
        exists lookups. repeat split; try assumption.
        intros _ [c Hc]. discriminate Hc. }
    destruct (get order "orderId") as [orderId|e3] eqn:E3; cbn [bind].
    2:{ destruct (IH log) as (lookups & Hlog & Hall & _).
        destruct (order_lookups pair rest log) as [ps log2]. cbn in *.
        exists lookups. repeat split; try assumption.
        intros _ _ Hids. inversion Hids as [|? ? [id Hid] ?]; subst.
        rewrite E3 in Hid. discriminate Hid. }
    unfold request.
    set (c := FameEXApi.getTransactionDetails _ _ _ _ _).
    destruct (IH (log ++ [c])) as (lookups & Hlog & Hall & Hlen).
    destruct (order_lookups pair rest (log ++ [c])) as [ps log2]. cbn in *.
    exists (c :: lookups). repeat split.
    + rewrite Hlog, <- app_assoc. reflexivity.
    + constructor; [exact I|exact Hall].
    + intros H1 H2 Hids. cbn. f_equal. apply Hlen; try assumption.
      now inversion Hids.
Qed.

Lemma requests_log (cs : list FameEXApi.call) (log : calls) :
  snd (requests cs log) = log ++ cs.
Proof.
  revert log. induction cs as [|c cs IH]; intros log; cbn.
  - now rewrite app_nil_r.
  - unfold request. specialize (IH (log ++ [c])).
    destruct (requests cs (log ++ [c])) as [ps log2]. cbn in *.
    rewrite IH, <- app_assoc. reflexivity.
Qed.

(** What a page adds to the call log: its four queries, then the lookups of
    its orders, one per order when the page resolves to an array. *)
Lemma getOpenOrdersPage_log (pair pageNum : value) (log : calls)
      (pairReadable coin1 coin2 : value) :
  get pair "pairReadable" = Normal pairReadable ->
  get pair "coin1" = Normal coin1 ->
  get pair "coin2" = Normal coin2 ->
  exists lookups,
    snd (getOpenOrdersPage pair pageNum log)
      = log ++ page_queries coin1 coin2 (default pageNum (VNum (num_of_Z 1)))
            ++ lookups /\
    Forall is_lookup lookups /\
    (forall result,
       fst (getOpenOrdersPage pair pageNum log) = Resolved (VArr result) ->
       List.length lookups = List.length result).
Proof.
  intros Hr H1 H2. unfold getOpenOrdersPage.
  rewrite Hr, H1, H2. cbn [bind].
  set (q := page_queries coin1 coin2 _).
  pose proof (requests_log q log) as Hq.
  destruct (requests q log) as [ps log1]. cbn [snd] in Hq. subst log1.
  destruct (promise_all ps) as [ordersData|e].
  2:{ exists []. rewrite app_nil_r. cbn. repeat split; [constructor|discriminate]. }
  destruct (mapM orders_of ordersData) as [lists|e]; cbn [bind].
  2:{ exists []. rewrite app_nil_r. cbn. repeat split; [constructor|discriminate]. }
  destruct (order_lookups_log pair (concat lists) (log ++ q))
    as (lookups & Hlog & Hall & Hlen).
  pose proof (order_lookups_length pair (concat lists) (log ++ q)) as Hlen'.
  destruct (order_lookups pair (concat lists) (log ++ q)) as [ps' log2].
  cbn [fst snd] in *. subst log2.
  exists lookups.
  destruct (promise_all (map _ _)) as [records|e] eqn:Erec; cbn [fst snd].
  - repeat split; [now rewrite app_assoc|exact Hall|].
    intros result E. injection E as <-.
    apply promise_all_Forall2 in Erec. apply Forall2_map_l in Erec.
    rewrite Hlen; eauto.
    + rewrite <- (Forall2_length Erec), length_combine, Hlen'.
      now rewrite Nat.min_id.
    + apply Forall_forall. intros order Hin.
      assert (Hrec : Forall2 (record_of pair) (concat lists) records).
      { apply (Forall2_combine_fst _ _ ps'); [now symmetry|].
        eapply Forall2_impl; [|exact Erec].
        intros [o p] r Hrec. exists p. exact Hrec. }
      clear - Hrec Hin.
      induction Hrec as [|o r os rs [p Hp] _ IH]; [contradiction|].
      destruct Hin as [<-|Hin]; [|now apply IH].
      destruct (order_record_fields _ _ _ _ Hp) as (orderId & ? & ? & ? & ?
        & ? & ? & ? & ? & ? & Hid & _). eauto.
  - repeat split; [now rewrite app_assoc|exact Hall|discriminate].
Qed.

(** *** The loop over the pages *)

Lemma formatPairName_fields (pair coinPair : value) :
  formatPairName pair = Normal coinPair ->
  exists pairReadable coin1 coin2,
    get coinPair "pairReadable" = Normal pairReadable /\
    get coinPair "coin1" = Normal coin1 /\
    get coinPair "coin2" = Normal coin2.
Proof.
  unfold formatPairName. intros H.
  bind_inv H. bind_inv H. injection H as <-.
  do 3 eexists. repeat split; reflexivity.
Qed.

Lemma lt_num_count (orders : list value) (total : value) (t : Q) :
  to_number total = Fin t ->
  lt_num (num_of_nat (List.length orders)) total
    = negb (Qle_bool t (count orders)).
Proof.
  intros H. unfold lt_num. rewrite H. reflexivity.
Qed.

Lemma lt_num_below (orders : list value) (total : value) (t : Q) :
  to_number total = Fin t -> (count orders < t)%Q ->
  lt_num (num_of_nat (List.length orders)) total = true.
Proof.
  intros H Hlt. rewrite (lt_num_count _ _ _ H). apply negb_true_iff.
  destruct (Qle_bool t (count orders)) eqn:E; [|reflexivity].
  apply Qle_bool_iff in E. lra.
Qed.

Lemma lt_num_reached (orders : list value) (total : value) (t : Q) :
  to_number total = Fin t -> (t <= count orders)%Q ->
  lt_num (num_of_nat (List.length orders)) total = false.
Proof.
  intros H Hle. rewrite (lt_num_count _ _ _ H). apply negb_false_iff.
  now apply Qle_bool_iff.
Qed.

Lemma page_at (coinPair : value) (log : calls) (j : nat) :
  getOpenOrdersPage coinPair (VNum (num_of_nat (S j)))
                    (log_after_pages coinPair log j)
  = (page_outcome coinPair log (S j), log_after_pages coinPair log (S j)).
Proof.
  unfold page_outcome. cbn [log_after_pages].
  replace (S j - 1) with j by lia. unfold page_number.
  now destruct (getOpenOrdersPage _ _ _).
Qed.

(** While the pages are arrays and the count stays below the total, the loop
    goes on to the next page. *)
Lemma loop_advance (coinPair limit : value) (log : calls) (d : nat) :
  forall j fuel,
    (forall k, j < k <= j + d ->
       page_outcome coinPair log k = Resolved (VArr (page_orders coinPair log k))
       /\ lt_num (num_of_nat (List.length (accumulated coinPair log k))) limit
          = true) ->
    getOpenOrders_loop (d + fuel) coinPair limit (accumulated coinPair log j)
                       (S j) (log_after_pages coinPair log j)
    = getOpenOrders_loop fuel coinPair limit (accumulated coinPair log (j + d))
                         (S (j + d)) (log_after_pages coinPair log (j + d)).
Proof.
  induction d as [|d IH]; intros j fuel H.
  - now rewrite Nat.add_0_r.
  - cbn [Nat.add getOpenOrders_loop].
    rewrite page_at. destruct (H (S j)) as [Hpage Hlt]; [lia|].
    rewrite Hpage. cbn [truthy negb spread].
    change (accumulated coinPair log j ++ page_orders coinPair log (S j))
      with (accumulated coinPair log (S j)).
    rewrite Hlt. rewrite IH.
    + now replace (S j + d) with (j + S d) by lia.
    + intros k Hk. apply H. lia.
Qed.

(** The last page: the loop ends on it when the count has reached the total,
    and gives up when the page is [undefined]. *)
Lemma loop_last (coinPair limit : value) (log : calls) (j fuel : nat) :
  (page_outcome coinPair log (S j)
     = Resolved (VArr (page_orders coinPair log (S j))) ->
   lt_num (num_of_nat (List.length (accumulated coinPair log (S j)))) limit
     = false ->
   getOpenOrders_loop (S fuel) coinPair limit (accumulated coinPair log j)
                      (S j) (log_after_pages coinPair log j)
   = Some (Resolved (VArr (accumulated coinPair log (S j))),
           log_after_pages coinPair log (S j))) /\
  (page_outcome coinPair log (S j) = Resolved VUndef ->
   getOpenOrders_loop (S fuel) coinPair limit (accumulated coinPair log j)
                      (S j) (log_after_pages coinPair log j)
   = Some (Resolved VUndef, log_after_pages coinPair log (S j))).
Proof.
  split.
  - intros Hpage Hlt. cbn [getOpenOrders_loop].
    rewrite page_at, Hpage. cbn [truthy negb spread].
    change (accumulated coinPair log j ++ page_orders coinPair log (S j))
      with (accumulated coinPair log (S j)).
    now rewrite Hlt.
  - intros Hpage. cbn [getOpenOrders_loop].
    rewrite page_at, Hpage. reflexivity.
Qed.

Lemma getOpenOrders_enters_loop (pair coinPair response total : value)
      (c : FameEXApi.call) (log : calls) (fuel : nat) :
  formatPairName pair = Normal coinPair ->
  total_lookup coinPair = Normal c ->
  fameEXApiClient log c = Resolved response ->
  read_total response = Normal total ->
  getOpenOrders fuel pair log
  = getOpenOrders_loop fuel coinPair total [] 1 (log ++ [c]).
Proof.
  intros Hpair Hc Hresponse Htotal. unfold getOpenOrders.
  rewrite Hpair. cbn [bind]. rewrite Hc. cbn [bind].
  unfold request. rewrite Hresponse. cbn [await bind].
  now rewrite Htotal.
Qed.

Lemma pages_requested_after (coinPair pairReadable coin1 coin2 : value)
      (log : calls) (n : nat) :
  get coinPair "pairReadable" = Normal pairReadable ->
  get coinPair "coin1" = Normal coin1 ->
  get coinPair "coin2" = Normal coin2 ->
  pages_requested (log_after_pages coinPair log n)
  = pages_requested log ++ map page_number (seq 1 n).
Proof.
  intros Hr H1 H2. induction n as [|n IH].
  - cbn. now rewrite app_nil_r.
  - cbn [log_after_pages].
    destruct (getOpenOrdersPage_log coinPair (page_number (S n))
                (log_after_pages coinPair log n) _ _ _ Hr H1 H2)
      as (lookups & -> & Hall & _).
    rewrite !pages_requested_app, IH, pages_requested_queries,
      (pages_requested_lookups _ Hall), app_nil_r, <- app_assoc.
    rewrite seq_S, map_app. reflexivity.
Qed.

(** C3. Once the pair is normalised and the first lookup has given a numeric
    total [t], [getOpenOrders] requests the pages 1, 2, 3, ... one after the
    other and puts their orders together.  If the pages before [n] are arrays
    that leave the count below [t], then: when page [n] is an array that
    brings the count to [t] or more, the result is the orders of pages 1 to
    [n]; when page [n] is [undefined], the result is [undefined] and the
    orders gathered so far are dropped; in both cases the pages requested are
    exactly 1 to [n].  With a total of 650 and 500 orders on each page (the
    first two are enough), two pages are requested and 1000 records are
    returned. *)
Theorem getOpenOrders_pagination
        (pair coinPair response total : value) (c : FameEXApi.call)
        (log : calls) (t : Q) :
  formatPairName pair = Normal coinPair ->
  total_lookup coinPair = Normal c ->
  fameEXApiClient log c = Resolved response ->
  read_total response = Normal total ->
  to_number total = Fin t ->
  let log1 := log ++ [c] in
  let page := page_outcome coinPair log1 in
  let orders := page_orders coinPair log1 in
  let gathered := accumulated coinPair log1 in
  let final := log_after_pages coinPair log1 in
  (forall n fuel,
     1 <= n <= fuel ->
     (forall k, 1 <= k < n ->
        page k = Resolved (VArr (orders k)) /\ (count (gathered k) < t)%Q) ->
     (page n = Resolved (VArr (orders n)) ->
      (t <= count (gathered n))%Q ->
      getOpenOrders fuel pair log
      = Some (Resolved (VArr (gathered n)), final n)) /\
     (page n = Resolved VUndef ->
      getOpenOrders fuel pair log = Some (Resolved VUndef, final n)) /\
     pages_requested (final n)
     = pages_requested log1 ++ map page_number (seq 1 n)) /\
  ((t == 650)%Q ->
   (forall k, 1 <= k <= 2 ->
      page k = Resolved (VArr (orders k)) /\ List.length (orders k) = 500) ->
   forall fuel, 2 <= fuel ->
     getOpenOrders fuel pair log
     = Some (Resolved (VArr (gathered 2)), final 2) /\
     List.length (gathered 2) = 1000 /\
     pages_requested (final 2)
     = pages_requested log1 ++ [page_number 1; page_number 2]).
Proof.
  intros Hpair Hc Hresponse Htotal Ht log1 page orders gathered final.
  subst page orders gathered final.
  destruct (formatPairName_fields _ _ Hpair)
    as (pairReadable & coin1 & coin2 & Hr & H1 & H2).
  assert (Hrule : forall n fuel,
     1 <= n <= fuel ->
     (forall k, 1 <= k < n ->
        page_outcome coinPair log1 k
        = Resolved (VArr (page_orders coinPair log1 k)) /\
        (count (accumulated coinPair log1 k) < t)%Q) ->
     (page_outcome coinPair log1 n
      = Resolved (VArr (page_orders coinPair log1 n)) ->
      (t <= count (accumulated coinPair log1 n))%Q ->
      getOpenOrders fuel pair log
      = Some (Resolved (VArr (accumulated coinPair log1 n)),
              log_after_pages coinPair log1 n)) /\
     (page_outcome coinPair log1 n = Resolved VUndef ->
      getOpenOrders fuel pair log
      = Some (Resolved VUndef, log_after_pages coinPair log1 n)) /\
     pages_requested (log_after_pages coinPair log1 n)
     = pages_requested log1 ++ map page_number (seq 1 n)).
  { intros n fuel Hn Hbefore.
    rewrite (getOpenOrders_enters_loop _ _ _ _ _ _ fuel
               Hpair Hc Hresponse Htotal).
    destruct n as [|j]; [lia|].
    replace fuel with (j + S (fuel - S j)) by lia.
    change (@nil value) with (accumulated coinPair log1 0).
    change (log ++ [c]) with (log_after_pages coinPair log1 0).
    rewrite loop_advance.
    2:{ intros k Hk. destruct (Hbefore k) as [Hp Hlt]; [lia|].
        split; [exact Hp|]. now apply (lt_num_below _ _ t). }
    cbn [Nat.add].
    destruct (loop_last coinPair total log1 j (fuel - S j)) as [Hstop Hfail].
    repeat split.
    - intros Hp Hle. apply Hstop; [exact Hp|]. now apply (lt_num_reached _ _ t).
    - exact Hfail.
    - exact (pages_requested_after _ _ _ _ _ _ Hr H1 H2). }
  split; [exact Hrule|].
  intros H650 Hpages fuel Hfuel.
  assert (Hlen : List.length (accumulated coinPair log1 2) = 1000).
  { cbn [accumulated].
    rewrite !length_app.
    destruct (Hpages 1) as [_ ->]; [lia|].
    destruct (Hpages 2) as [_ ->]; [lia|]. reflexivity. }
  destruct (Hrule 2 fuel) as (Hstop & _ & Hreq); [lia| |].
  { intros k Hk. assert (k = 1) as -> by lia.
    destruct (Hpages 1) as [Hp Hl]; [lia|]. split; [exact Hp|].
    unfold count. cbn [accumulated app].
    rewrite Hl, H650. reflexivity. }
  repeat split.
  - apply Hstop; [apply Hpages; lia|].
    unfold count. rewrite Hlen, H650. discriminate.
  - exact Hlen.
  - exact Hreq.
Qed.

(** A total that is not a number ([undefined], say) compares false with any
    count: the loop ends after the first page. *)
Lemma getOpenOrders_without_total
      (pair coinPair response total : value) (c : FameEXApi.call)
      (log : calls) (orders : list value) (fuel : nat) :
  formatPairName pair = Normal coinPair ->
  total_lookup coinPair = Normal c ->
  fameEXApiClient log c = Resolved response ->
  read_total response = Normal total ->
  to_number total = NaN ->
  page_outcome coinPair (log ++ [c]) 1 = Resolved (VArr orders) ->
  getOpenOrders (S fuel) pair log
  = Some (Resolved (VArr orders), log_after_pages coinPair (log ++ [c]) 1).
Proof.
  intros Hpair Hc Hresponse Htotal Hnan Hpage.
  rewrite (getOpenOrders_enters_loop _ _ _ _ _ _ (S fuel)
             Hpair Hc Hresponse Htotal).
  destruct (loop_last coinPair total (log ++ [c]) 0 fuel) as [Hstop _].
  assert (Horders : page_orders coinPair (log ++ [c]) 1 = orders).
  { unfold page_orders. now rewrite Hpage. }
  cbn [accumulated app] in Hstop. rewrite Horders in Hstop.
  apply Hstop; [exact Hpage|].
  unfold lt_num. rewrite Hnan. reflexivity.
Qed.

Lemma getOpenOrders_loop_log (coinPair pairReadable coin1 coin2 limit : value) :
  get coinPair "pairReadable" = Normal pairReadable ->
  get coinPair "coin1" = Normal coin1 ->
  get coinPair "coin2" = Normal coin2 ->
  forall fuel allOrders pageNum log out final,
    getOpenOrders_loop fuel coinPair limit allOrders pageNum log
    = Some (out, final) ->
    exists rest,
      final = snd (getOpenOrdersPage coinPair (page_number pageNum) log) ++ rest.
Proof.
  intros Hr H1 H2.
  induction fuel as [|fuel IH]; intros allOrders pageNum log out final H;
    [discriminate|].
  cbn [getOpenOrders_loop] in H. unfold page_number.
  destruct (getOpenOrdersPage coinPair (VNum (num_of_nat pageNum)) log)
    as [p log1].
  cbn [snd].
  assert (Hnow : forall o, Some (o, log1) = Some (out, final) ->
                           exists rest, final = log1 ++ rest).
  { intros o E. injection E as _ <-. exists []. now rewrite app_nil_r. }
  destruct p as [ordersInfo|e]; [|now apply (Hnow (Rejected e))].
  destruct (negb (truthy ordersInfo)); [now apply (Hnow (Resolved VUndef))|].
  destruct (spread ordersInfo) as [items|e]; [|now apply (Hnow (Rejected e))].
  destruct (lt_num _ limit); [|now apply (Hnow (Resolved (VArr (allOrders ++ items))))].
  apply IH in H. destruct H as [rest ->].
  destruct (getOpenOrdersPage_log coinPair (page_number (S pageNum)) log1
              _ _ _ Hr H1 H2) as (lookups & -> & _).
  rewrite <- app_assoc. eauto.
Qed.

(** C9. The loop tests the count after the page, not before it.  Whatever
    total the first lookup reports, a call that returns has requested page 1
    first: its four queries, then one lookup per order of the page.  With a
    total of 0 and a first page that is an array, the call returns the orders
    of that page, not an empty list. *)
Theorem getOpenOrders_requests_first_page
        (pair coinPair response total : value) (c : FameEXApi.call)
        (log : calls) (fuel : nat) :
  formatPairName pair = Normal coinPair ->
  total_lookup coinPair = Normal c ->
  fameEXApiClient log c = Resolved response ->
  read_total response = Normal total ->
  1 <= fuel ->
  let log1 := log ++ [c] in
  let first := log_after_pages coinPair log1 1 in
  (forall out final,
     getOpenOrders fuel pair log = Some (out, final) ->
     exists rest, final = first ++ rest) /\
  (exists coin1 coin2 lookups,
     first = log1 ++ page_queries coin1 coin2 (page_number 1) ++ lookups /\
     Forall is_lookup lookups /\
     forall orders,
       page_outcome coinPair log1 1 = Resolved (VArr orders) ->
       List.length lookups = List.length orders) /\
  (forall orders,
     to_number total = Fin (inject_Z 0) ->
     page_outcome coinPair log1 1 = Resolved (VArr orders) ->
     getOpenOrders fuel pair log = Some (Resolved (VArr orders), first)).
Proof.
  intros Hpair Hc Hresponse Htotal Hfuel log1 first.
  destruct (formatPairName_fields _ _ Hpair)
    as (pairReadable & coin1 & coin2 & Hr & H1 & H2).
  rewrite (getOpenOrders_enters_loop _ _ _ _ _ _ fuel
             Hpair Hc Hresponse Htotal).
  fold log1. repeat split.
  - intros out final H.
    exact (getOpenOrders_loop_log _ _ _ _ _ Hr H1 H2 _ _ _ _ _ _ H).
  - destruct (getOpenOrdersPage_log coinPair (page_number 1) log1
                _ _ _ Hr H1 H2) as (lookups & Hlog & Hall & Hlen).
    exists coin1, coin2, lookups. repeat split; assumption.
  - intros orders Hzero Hpage.
    destruct fuel as [|fuel]; [lia|].
    destruct (loop_last coinPair total log1 0 fuel) as [Hstop _].
    assert (Horders : page_orders coinPair log1 1 = orders).
    { unfold page_orders. now rewrite Hpage. }
    cbn [accumulated app] in Hstop. rewrite Horders in Hstop.
    apply Hstop; [exact Hpage|].
    apply (lt_num_reached _ _ (inject_Z 0) Hzero).
    unfold count, inject_Z, Qle. cbn. lia.
Qed.

(** *** The cached catalogs *)



(** While a refresh is flagged, a call does nothing. *)
Lemma getCurrencies_in_flight (coin forceUpdate : value) (m : exports)
      (log : calls) :
  gettingCurrencies m = true ->
  getCurrencies coin forceUpdate m log = Normal (Value VUndef, m, log).
Proof. intros H. unfold getCurrencies. now rewrite H. Qed.

Lemma getMarkets_in_flight (pair : value) (m : exports) (log : calls) :
  gettingMarkets m = true ->
  getMarkets pair m log = Normal (Value VUndef, m, log).
Proof. intros H. unfold getMarkets. now rewrite H. Qed.

(** A call that finds no flag and cannot answer from the snapshot starts a
    refresh: it sets the flag and requests the two lists. *)
Lemma getCurrencies_starts_refresh (coin forceUpdate : value) (m : exports)
      (log : calls) :
  gettingCurrencies m = false ->
  truthy (exchangeCurrencies m) = false \/ truthy forceUpdate = true ->
  getCurrencies coin forceUpdate m log
  = Normal (Promise
              [ fameEXApiClient log FameEXApi.currencies;
                fameEXApiClient (log ++ [FameEXApi.currencies])
                                FameEXApi.currenciesWithNetwork ],
            set_gettingCurrencies true m,
            log ++ [FameEXApi.currencies; FameEXApi.currenciesWithNetwork]).
Proof.
  intros Hflag Hmiss. unfold getCurrencies. rewrite Hflag.
  replace (truthy (exchangeCurrencies m) && negb (truthy forceUpdate))%bool
    with false by (destruct Hmiss as [-> | ->];
                   [reflexivity|now rewrite andb_false_r]).
  unfold request. now rewrite <- app_assoc.
Qed.


(** [then], [catch] and [finally] never store an empty snapshot. *)
Lemma getCurrencies_settled_snapshot (upstream : list outcome) (m : exports) :
  let m' := snd (getCurrencies_settled upstream m) in
  exchangeCurrencies m' = exchangeCurrencies m \/
  exists result, result <> [] /\ exchangeCurrencies m' = VObj result.
Proof.
  unfold getCurrencies_settled, getCurrencies_then.
  destruct (promise_all upstream) as [[|a [|b [|]]]|e]; cbn; auto.
  destruct (merge_currencies a b) as [[|entry result]|e]; cbn; auto.
  right. exists (entry :: result). split; [discriminate|reflexivity].
Qed.

Lemma getMarkets_settled_snapshot (upstream : list outcome) (m : exports) :
  let m' := snd (getMarkets_settled upstream m) in
  exchangeMarkets m' = exchangeMarkets m \/
  exists result, result <> [] /\ exchangeMarkets m' = VObj result.
Proof.
  unfold getMarkets_settled, getMarkets_then.
  destruct (promise_all upstream) as [[|a [|]]|e]; cbn; auto.
  destruct (merge_markets a) as [[|entry result]|e]; cbn; auto.
  right. exists (entry :: result). split; [discriminate|reflexivity].
Qed.

(** C10. When the answers merge into a result without entries, the callbacks
    of [getCurrencies] and of [getMarkets] resolve the call with that empty
    object, not with [undefined], clear the flag and leave the snapshot as it
    was; and no answer at all makes them store an empty snapshot. *)
Theorem empty_result_keeps_snapshot
        (currenciesData currenciesWithNetworks markets : value) (m : exports) :
  merge_currencies currenciesData currenciesWithNetworks = Normal [] ->
  merge_markets markets = Normal [] ->
  (let (v, m') := getCurrencies_settled
                    [Resolved currenciesData; Resolved currenciesWithNetworks]
                    m in
   v = VObj [] /\
   exchangeCurrencies m' = exchangeCurrencies m /\
   gettingCurrencies m' = false /\
   gettingCurrencies (getCurrencies_finally m') = false /\
   exchangeCurrencies (getCurrencies_finally m') = exchangeCurrencies m) /\
  (let (v, m') := getMarkets_settled [Resolved markets] m in
   v = VObj [] /\
   exchangeMarkets m' = exchangeMarkets m /\
   gettingMarkets m' = false /\
   gettingMarkets (getMarkets_finally m') = false /\
   exchangeMarkets (getMarkets_finally m') = exchangeMarkets m) /\
  (forall upstream,
     let m' := snd (getCurrencies_settled upstream m) in
     exchangeCurrencies m' = exchangeCurrencies m \/
     exists result, result <> [] /\ exchangeCurrencies m' = VObj result) /\
  (forall upstream,
     let m' := snd (getMarkets_settled upstream m) in
     exchangeMarkets m' = exchangeMarkets m \/
     exists result, result <> [] /\ exchangeMarkets m' = VObj result).
Proof.
  intros Hcurrencies Hmarkets. repeat split.
  - unfold getCurrencies_settled, getCurrencies_then.
    cbn [promise_all]. rewrite Hcurrencies. cbn. repeat split.
  - unfold getMarkets_settled, getMarkets_then.
    cbn [promise_all]. rewrite Hmarkets. cbn. repeat split.
  - intros upstream. exact (getCurrencies_settled_snapshot upstream m).
  - intros upstream. exact (getMarkets_settled_snapshot upstream m).
Qed.

(** *** Calls that arrive while a refresh is flagged *)

Lemma run_calls_in_flight (args : list (value * value)) (s : system) :
  gettingCurrencies (fields s) = true ->
  run (map (fun a => Call (fst a) (snd a)) args) s = Some s.
Proof.
  intros Hflag. induction args as [|[coin forceUpdate] args IH]; cbn.
  - reflexivity.
  - rewrite (getCurrencies_in_flight _ _ _ _ Hflag).
    destruct s; cbn in *. exact IH.
Qed.

(** Any number of calls before the callbacks of the first one run: the first
    starts the refresh, the others return at once. *)
Lemma run_calls_single_flight (coin forceUpdate : value)
      (args : list (value * value)) (s : system) :
  gettingCurrencies (fields s) = false ->
  truthy (exchangeCurrencies (fields s)) = false \/ truthy forceUpdate = true ->
  run (Call coin forceUpdate :: map (fun a => Call (fst a) (snd a)) args) s
  = Some {| fields := set_gettingCurrencies true (fields s);
            issued := issued s ++ [FameEXApi.currencies;
                                   FameEXApi.currenciesWithNetwork];
            refreshing :=
              refreshing s ++
              [[ fameEXApiClient (issued s) FameEXApi.currencies;
                 fameEXApiClient (issued s ++ [FameEXApi.currencies])
                                 FameEXApi.currenciesWithNetwork ]];
            finishing := finishing s |}.
Proof.
  intros Hflag Hmiss. cbn [run step].
  rewrite (getCurrencies_starts_refresh _ _ _ _ Hflag Hmiss).
  now rewrite run_calls_in_flight.
Qed.

(** *** What reaches the caller *)

(** A call of [getCurrencies] never throws: it returns a value or a promise,
    and the callbacks of the promise always resolve it. *)
Lemma getCurrencies_returns (coin forceUpdate : value) (m : exports)
      (log : calls) :
  exists r, getCurrencies coin forceUpdate m log = Normal r.
Proof.
  unfold getCurrencies, request. destruct (gettingCurrencies m); [eauto|].
  destruct (truthy (exchangeCurrencies m)) eqn:E; cbn [andb]; [|eauto].
  destruct (negb (truthy forceUpdate)); [|eauto].
  destruct (exchangeCurrencies m); cbn in E; try discriminate; cbn; eauto.
Qed.

(** Every pair given as a string is normalised, and the first lookup of
    [getOpenOrders] is then requested. *)
Lemma string_pairs_normalise (raw : string) :
  exists coinPair c,
    formatPairName (VStr raw) = Normal coinPair /\
    total_lookup coinPair = Normal c.
Proof.
  unfold formatPairName. cbn. do 2 eexists. split; reflexivity.
Qed.


(** [getBalances] rejects when no wallet of the answer is the spot wallet. *)
Lemma getBalances_without_spot (nonzero balances : value)
      (wallets : list value) (log : calls) :
  fameEXApiClient log FameEXApi.getBalances = Resolved balances ->
  get balances "data" = Normal (VArr wallets) ->
  filterM is_spot wallets = Normal [] ->
  getBalances nonzero log = (Rejected TypeError, log ++ [FameEXApi.getBalances]).
Proof.
  intros Hanswer Hdata Hspot. unfold getBalances, request.
  rewrite Hanswer. cbn [await]. unfold spot_wallet.
  rewrite Hdata. cbn [bind as_array]. rewrite Hspot. reflexivity.
Qed.

(** [getOpenOrders] rejects when its first lookup does. *)
Lemma getOpenOrders_lookup_rejected (pair coinPair : value)
      (c : FameEXApi.call) (e : error) (log : calls) (fuel : nat) :
  formatPairName pair = Normal coinPair ->
  total_lookup coinPair = Normal c ->
  fameEXApiClient log c = Rejected e ->
  getOpenOrders fuel pair log = Some (Rejected e, log ++ [c]).
Proof.
  intros Hpair Hc Hanswer. unfold getOpenOrders.
  rewrite Hpair. cbn [bind]. rewrite Hc. cbn [bind].
  unfold request. now rewrite Hanswer.
Qed.

End Properties.


(** ** The properties on the concrete collaborators *)

Section Runs.

Local Abbreviation S2N := Example.StringToNumber.
Local Abbreviation N2S := Example.NumberToString.
Local Abbreviation Sub := Example.NumberSubtract.
Local Abbreviation table := Example.networks.

(** C1, where the code leaves the claim.  [getBalances] rejects with a
    TypeError when the answer has a margin wallet and no spot wallet: reading
    [list] of the missing wallet stands between the two [try] blocks.
    [getOpenOrders] rejects with the reason of its first lookup, which no
    [try] surrounds.  [getOpenOrdersPage] rejects when an answer of
    [getOrders] has no [data]: the four answers are read after the first
    [try]. *)
Theorem public_operations_reject :
  getBalances S2N N2S Example.margin_only VUndef []
  = (Rejected TypeError, [FameEXApi.getBalances]) /\
  getOpenOrders S2N N2S Sub Example.refusing 1 (VStr "BTC/USDT") []
  = Some (Rejected (Reason (VStr "ETIMEDOUT")), [Example.total_query]) /\
  fst (getOpenOrdersPage S2N N2S Sub
         (Example.answering (fun _ => Resolved (VObj [])))
         Example.btc_usdt VUndef [])
  = Rejected TypeError.
Proof. repeat split. Qed.



Lemma getOpenOrders_pagination_witness :
  (let gathered :=
     accumulated S2N N2S Sub Example.crowded Example.btc_usdt
                 [Example.total_query] 2 in
   let final :=
     log_after_pages S2N N2S Sub Example.crowded Example.btc_usdt
                     [Example.total_query] 2 in
   getOpenOrders S2N N2S Sub Example.crowded 2 (VStr "btc_usdt") []
   = Some (Resolved (VArr gathered), final) /\
   List.length gathered = 1000 /\
   pages_requested final = [page_number 1; page_number 2]) /\
  (List.length (page_orders S2N N2S Sub Example.cut_short Example.btc_usdt
                            [Example.total_query] 1) = 1 /\
   getOpenOrders S2N N2S Sub Example.cut_short 2 (VStr "btc_usdt") []
   = Some (Resolved VUndef,
           log_after_pages S2N N2S Sub Example.cut_short Example.btc_usdt
                           [Example.total_query] 2)).
Proof.
  split.
  - destruct (getOpenOrders_pagination S2N N2S Sub Example.crowded
                (VStr "btc_usdt") Example.btc_usdt
                (Example.details_answer (Example.num 650)) (Example.num 650)
                Example.total_query [] (inject_Z 650)
                eq_refl eq_refl eq_refl eq_refl eq_refl) as [_ Hscenario].
    apply Hscenario.
    + reflexivity.
    + intros k Hk. destruct k as [|[|[|k]]]; try lia;
        (split; vm_compute; reflexivity).
    + lia.
  - split; [reflexivity|].
    destruct (getOpenOrders_pagination S2N N2S Sub Example.cut_short
                (VStr "btc_usdt") Example.btc_usdt
                (Example.details_answer (Example.num 5)) (Example.num 5)
                Example.total_query [] (inject_Z 5)
                eq_refl eq_refl eq_refl eq_refl eq_refl) as [Hrule _].
    destruct (Hrule 2 2) as (_ & Hundefined & _).
    + lia.
    + intros k Hk. assert (k = 1) as -> by lia.
      split; vm_compute; reflexivity.
    + apply Hundefined. reflexivity.
Defined.

(** C4 needs no assumption; on "btc_usdt" it gives both coins. *)
Lemma formatPairName_on_strings_witness :
  formatPairName (VStr "btc_usdt") = Normal Example.btc_usdt.
Proof.
  destruct (formatPairName_on_strings "btc_usdt")
    as (coin1 & rest & Hsplit & _ & Htwo & _).
  vm_compute in Hsplit. injection Hsplit as <- <-.
  exact (Htwo "USDT"%string eq_refl).
Defined.

(** C5, where the code leaves the claim.  A first call starts a refresh and
    its [then] stores the snapshot and clears the flag; the awaiting caller,
    resumed before [finally], forces a second refresh, which sets the flag;
    the [finally] of the first refresh then clears the flag of the second, so
    a third call starts another refresh while the second is in flight. *)
Theorem stale_finally_allows_two_refreshes :
  exists s,
    run S2N N2S table Example.catalog
        [ Call VUndef VUndef; Settle 0;
          Call (VStr "BTC") (VBool true); Finally;
          Call (VStr "BTC") (VBool true) ]
        Example.idle = Some s /\
    List.length (refreshing s) = 2 /\
    gettingCurrencies (fields s) = true /\
    issued s = [ FameEXApi.currencies; FameEXApi.currenciesWithNetwork;
                 FameEXApi.currencies; FameEXApi.currenciesWithNetwork;
                 FameEXApi.currencies; FameEXApi.currenciesWithNetwork ].
Proof. eexists. repeat split. Qed.


Lemma amountLeft_is_executed_minus_amount_witness :
  let page :=
    getOpenOrdersPage S2N N2S Sub Example.mixed Example.btc_usdt VUndef [] in
  exists result,
    fst page = Resolved (VArr result) /\
    Forall2 (amounts_of S2N N2S Sub)
            [ Example.vendor_order 1; Example.vendor_order 2;
              Example.vendor_order 3; Example.vendor_order 4 ] result /\
    Forall negative_when_unfilled result /\
    Forall (fun r =>
              get r "amount" = Normal (VNum (Fin (inject_Z 2))) /\
              get r "amountExecuted" = Normal (VNum (Fin (1 # 2))) /\
              get r "amountLeft" = Normal (VNum (Fin (- 3 # 2))))
           result.
Proof.
  intros page.
  pose (result := match fst page with
                  | Resolved (VArr records) => records
                  | _ => []
                  end).
  exists result. split; [reflexivity|].
  destruct (amountLeft_is_executed_minus_amount S2N N2S Sub Example.mixed
              Example.btc_usdt VUndef [] (snd page) result eq_refl)
    as (coin1 & coin2 & r1 & r2 & r3 & r4 & o1 & o2 & o3 & o4 & H).
  cbn zeta in H.
  destruct H as (Hc1 & Hc2 & H1 & H2 & H3 & H4 & Ho1 & Ho2 & Ho3 & Ho4
                 & Hrec & Hsign).
  injection Hc1 as <-. injection Hc2 as <-.
  vm_compute in H1. injection H1 as <-.
  vm_compute in H2. injection H2 as <-.
  vm_compute in H3. injection H3 as <-.
  vm_compute in H4. injection H4 as <-.
  vm_compute in Ho1. injection Ho1 as <-.
  vm_compute in Ho2. injection Ho2 as <-.
  vm_compute in Ho3. injection Ho3 as <-.
  vm_compute in Ho4. injection Ho4 as <-.
  split; [exact Hrec|]. split.
  - exact (Hsign exact_subtraction_keeps_sign).
  - vm_compute. repeat constructor.
Defined.

Lemma getOpenOrders_requests_first_page_witness :
  exists orders,
    List.length orders = 2 /\
    getOpenOrders S2N N2S Sub Example.unreported 1 (VStr "btc/usdt") []
    = Some (Resolved (VArr orders),
            log_after_pages S2N N2S Sub Example.unreported Example.btc_usdt
                            [Example.total_query] 1).
Proof.
  destruct (getOpenOrders_requests_first_page S2N N2S Sub Example.unreported
              (VStr "btc/usdt") Example.btc_usdt
              (Example.details_answer (Example.num 0)) (Example.num 0)
              Example.total_query [] 1
              eq_refl eq_refl eq_refl eq_refl (le_n 1)) as (_ & _ & Hzero).
  exists (page_orders S2N N2S Sub Example.unreported Example.btc_usdt
                      [Example.total_query] 1).
  split; [reflexivity|].
  apply Hzero; reflexivity.
Defined.

Lemma empty_result_keeps_snapshot_witness :
  let currenciesData := Example.envelope (VObj []) in
  let currenciesWithNetworks :=
    Example.envelope (VObj [("list", VArr [])]%string) in
  let markets := Example.envelope (VArr []) in
  merge_currencies S2N N2S table currenciesData currenciesWithNetworks
  = Normal [] /\
  merge_markets N2S Example.getPrecision markets = Normal [] /\
  (let (v, m') := getCurrencies_settled S2N N2S table
                    [Resolved currenciesData; Resolved currenciesWithNetworks]
                    Example.loaded in
   v = VObj [] /\
   exchangeCurrencies m' = Example.btc_snapshot /\
   gettingCurrencies m' = false) /\
  (let (v, m') := getMarkets_settled N2S Example.getPrecision
                    [Resolved markets] Example.loaded in
   v = VObj [] /\
   exchangeMarkets m' = VUndef /\
   gettingMarkets m' = false).
Proof.
  intros currenciesData currenciesWithNetworks markets.
  split; [reflexivity|]. split; [reflexivity|].
  destruct (empty_result_keeps_snapshot S2N N2S table Example.getPrecision
              currenciesData currenciesWithNetworks markets Example.loaded
              eq_refl eq_refl)
    as (Hcurrencies & Hmarkets & _ & _).
  split.
  - destruct (getCurrencies_settled _ _ _ _ _) as [v m'].
    destruct Hcurrencies as (Hv & Hsnapshot & Hflag & _).
    repeat split; assumption.
  - destruct (getMarkets_settled _ _ _ _) as [v m'].
    destruct Hmarkets as (Hv & Hsnapshot & Hflag & _).
    repeat split; assumption.
Defined.

End Runs.


(** * Further properties *)

(** ** Pair names, order types and network names *)

Lemma is_separator_upper (c : ascii) :
  is_separator (upper_ascii c) = is_separator c.
Proof. destruct c as [[] [] [] [] [] [] [] []]; reflexivity. Qed.

Lemma upper_app (a b : string) : upper (a ++ b) = (upper a ++ upper b)%string.
Proof. induction a as [|c a IH]; cbn; [reflexivity|]. now rewrite IH. Qed.

Lemma split_upper (s : string) : split (upper s) = map upper (split s).
Proof.
  induction s as [|c s IH]; cbn; [reflexivity|].
  rewrite is_separator_upper. destruct (is_separator c); cbn.
  - now rewrite IH.
  - rewrite IH. destruct (split s); reflexivity.
Qed.

Lemma separator_free_upper (s : string) :
  separator_free (upper s) = separator_free s.
Proof.
  induction s as [|c s IH]; cbn; [reflexivity|].
  now rewrite is_separator_upper, IH.
Qed.

Lemma split_separator_free (s : string) :
  separator_free s = true -> split s = [s].
Proof.
  induction s as [|c s IH]; cbn; [reflexivity|].
  intros H. apply andb_true_iff in H. destruct H as [Hc Hs].
  apply negb_true_iff in Hc. rewrite Hc, (IH Hs). reflexivity.
Qed.

Lemma split_two (a b : string) (sep : ascii) :
  separator_free a = true ->
  separator_free b = true ->
  is_separator sep = true ->
  split (a ++ String sep b) = [a; b].
Proof.
  intros Ha Hb Hsep. induction a as [|c a IH]; cbn.
  - now rewrite Hsep, (split_separator_free _ Hb).
  - cbn in Ha. apply andb_true_iff in Ha. destruct Ha as [Hc Ha].
    apply negb_true_iff in Hc. now rewrite Hc, (IH Ha).
Qed.

Lemma split_tokens (s : string) :
  Forall (fun t => separator_free t = true) (split s).
Proof.
  induction s as [|c s IH]; cbn.
  - repeat constructor.
  - destruct (is_separator c) eqn:Ec.
    + constructor; [reflexivity|exact IH].
    + destruct (split s) as [|t ts].
      * repeat constructor. cbn. now rewrite Ec.
      * inversion IH; subst. constructor; [|assumption].
        cbn. rewrite Ec. assumption.
Qed.

Lemma formatPairName_joined (a b : string) (sep : ascii) :
  separator_free a = true ->
  separator_free b = true ->
  is_separator sep = true ->
  formatPairName (VStr (a ++ String sep b))
  = Normal (pair_object (upper a) (Some (upper b))).
Proof.
  intros Ha Hb Hsep. unfold formatPairName. cbn [toUpperCase bind].
  rewrite upper_app. cbn [upper].
  rewrite (split_two (upper a) (upper b) (upper_ascii sep)).
  - reflexivity.
  - now rewrite separator_free_upper.
  - now rewrite separator_free_upper.
  - now rewrite is_separator_upper.
Qed.

(** X1. Two tokens without separator, joined by '-', '_' or '/', normalise to
    the pair of their uppercase forms; two spellings of the same tokens,
    whatever their separators and the case of their letters, normalise to the
    same pair. *)
Theorem formatPairName_spellings (a b a' b' : string) (sep sep' : ascii) :
  separator_free a = true ->
  separator_free b = true ->
  is_separator sep = true ->
  is_separator sep' = true ->
  upper a' = upper a ->
  upper b' = upper b ->
  formatPairName (VStr (a ++ String sep b))
  = Normal (pair_object (upper a) (Some (upper b))) /\
  formatPairName (VStr (a' ++ String sep' b'))
  = formatPairName (VStr (a ++ String sep b)).
Proof.
  intros Ha Hb Hsep Hsep' Ea Eb.
  rewrite (formatPairName_joined a b sep Ha Hb Hsep).
  split; [reflexivity|].
  rewrite <- Ea, <- Eb. apply formatPairName_joined.
  - now rewrite <- separator_free_upper, Ea, separator_free_upper.
  - now rewrite <- separator_free_upper, Eb, separator_free_upper.
  - exact Hsep'.
Qed.

(** X2. Normalising the readable name of a normalised pair gives the same
    pair again when the input had at least two tokens.  With a single token
    it does not: the missing second coin comes back as the coin
    "UNDEFINED". *)
Theorem formatPairName_again (raw coin1 : string) (rest : list string) :
  split (upper raw) = coin1 :: rest ->
  (forall coin2 more,
     rest = coin2 :: more ->
     formatPairName (VStr raw) = Normal (pair_object coin1 (Some coin2)) /\
     get (pair_object coin1 (Some coin2)) "pairReadable"
     = Normal (VStr (coin1 ++ "/" ++ coin2)) /\
     formatPairName (VStr (coin1 ++ "/" ++ coin2))
     = Normal (pair_object coin1 (Some coin2))) /\
  (rest = [] ->
   formatPairName (VStr raw) = Normal (pair_object coin1 None) /\
   get (pair_object coin1 None) "pairReadable"
   = Normal (VStr (coin1 ++ "/undefined")) /\
   formatPairName (VStr (coin1 ++ "/undefined"))
   = Normal (pair_object coin1 (Some "UNDEFINED"%string))).
Proof.
  intros Hsplit.
  assert (Hfirst : formatPairName (VStr raw)
                   = Normal (pair_object coin1 (hd_error rest))).
  { unfold formatPairName. cbn. rewrite Hsplit. destruct rest; reflexivity. }
  pose proof (split_tokens (upper raw)) as Hfree.
  assert (Hupper : Forall (fun t => upper t = t) (split (upper raw))).
  { rewrite split_upper. apply Forall_forall. intros t Ht.
    apply in_map_iff in Ht. destruct Ht as [t' [<- _]].
    apply upper_idempotent. }
  rewrite Hsplit in Hfree, Hupper.
  inversion Hfree as [|? ? Hf1 Hfrest]; subst.
  inversion Hupper as [|? ? Hu1 Hurest]; subst.
  split.
  - intros coin2 more ->. repeat split; [exact Hfirst|].
    inversion Hfrest as [|? ? Hf2 _]; subst.
    inversion Hurest as [|? ? Hu2 _]; subst.
    rewrite <- Hu1 at 2. rewrite <- Hu2 at 2.
    apply (formatPairName_joined coin1 coin2 "/"); auto.
  - intros ->. repeat split; [exact Hfirst|].
    rewrite <- Hu1 at 2.
    apply (formatPairName_joined coin1 "undefined" "/"); auto.
Qed.

Section More.

Variable StringToNumber : string -> number.
Variable NumberToString : number -> string.
Variable NumberSubtract : number -> number -> number.
Variable networks : value.
Variable getPrecision : value -> completion value.
Variable fameEXApiClient : FameEXApi.client.

Local Abbreviation to_string := (to_string NumberToString).
Local Abbreviation to_number := (to_number StringToNumber NumberToString).
Local Abbreviation lt_num := (lt_num StringToNumber NumberToString).
Local Abbreviation formatOrderType := (formatOrderType NumberToString).
Local Abbreviation formatNetworkName := (formatNetworkName networks).
Local Abbreviation request := (request fameEXApiClient).
Local Abbreviation requests := (requests fameEXApiClient).
Local Abbreviation record_of :=
  (record_of StringToNumber NumberToString NumberSubtract).
Local Abbreviation amounts_of :=
  (amounts_of StringToNumber NumberToString NumberSubtract).
Local Abbreviation order_record :=
  (order_record StringToNumber NumberToString NumberSubtract).
Local Abbreviation order_lookup := (order_lookup fameEXApiClient).
Local Abbreviation order_lookups := (order_lookups fameEXApiClient).
Local Abbreviation balance_record :=
  (balance_record StringToNumber NumberToString).
Local Abbreviation getOpenOrdersPage :=
  (getOpenOrdersPage StringToNumber NumberToString NumberSubtract
     fameEXApiClient).
Local Abbreviation getOpenOrders_loop :=
  (getOpenOrders_loop StringToNumber NumberToString NumberSubtract
     fameEXApiClient).
Local Abbreviation getOpenOrders :=
  (getOpenOrders StringToNumber NumberToString NumberSubtract fameEXApiClient).
Local Abbreviation getBalances :=
  (getBalances StringToNumber NumberToString fameEXApiClient).
Local Abbreviation currencyInfo_record :=
  (currencyInfo_record StringToNumber NumberToString).
Local Abbreviation merge_currencies :=
  (merge_currencies StringToNumber NumberToString networks).
Local Abbreviation getCurrencies := (getCurrencies NumberToString fameEXApiClient).
Local Abbreviation getCurrencies_then :=
  (getCurrencies_then StringToNumber NumberToString networks).
Local Abbreviation getCurrencies_settled :=
  (getCurrencies_settled StringToNumber NumberToString networks).
Local Abbreviation getCurrencies_alone :=
  (getCurrencies_alone StringToNumber NumberToString networks fameEXApiClient).
Local Abbreviation marketInfo_record :=
  (marketInfo_record NumberToString getPrecision).
Local Abbreviation merge_markets := (merge_markets NumberToString getPrecision).
Local Abbreviation getMarkets := (getMarkets NumberToString fameEXApiClient).
Local Abbreviation getMarkets_then := (getMarkets_then NumberToString getPrecision).
Local Abbreviation getMarkets_settled :=
  (getMarkets_settled NumberToString getPrecision).
Local Abbreviation getMarkets_alone :=
  (getMarkets_alone NumberToString getPrecision fameEXApiClient).
Local Abbreviation marketInfo := (marketInfo NumberToString fameEXApiClient).
Local Abbreviation currencyInfo := (currencyInfo NumberToString fameEXApiClient).
Local Abbreviation initialise := (initialise NumberToString fameEXApiClient).
Local Abbreviation step :=
  (step StringToNumber NumberToString networks fameEXApiClient).
Local Abbreviation run :=
  (run StringToNumber NumberToString networks fameEXApiClient).
Local Abbreviation log_after_pages :=
  (log_after_pages StringToNumber NumberToString NumberSubtract
     fameEXApiClient).
Local Abbreviation page_outcome :=
  (page_outcome StringToNumber NumberToString NumberSubtract fameEXApiClient).
Local Abbreviation page_orders :=
  (page_orders StringToNumber NumberToString NumberSubtract fameEXApiClient).
Local Abbreviation accumulated :=
  (accumulated StringToNumber NumberToString NumberSubtract fameEXApiClient).

Lemma formatPairName_not_string (pair : value) :
  (forall s, pair <> VStr s) -> formatPairName pair = Throw TypeError.
Proof.
  intros H. destruct pair; try reflexivity. elim (H s). reflexivity.
Qed.

(** X3. A pair that is not a string is refused with a TypeError:
    [getOpenOrders] rejects before any request, and [getMarkets], asked for a
    cached market, throws to its caller instead of returning; only a falsy
    pair ([undefined], 0, ...) gets past [getMarkets], which then reads the
    snapshot under the name of that value. *)
Theorem pair_must_be_a_string (pair : value) (m : exports) (log : calls)
        (fuel : nat) :
  (forall s, pair <> VStr s) ->
  gettingMarkets m = false ->
  truthy (exchangeMarkets m) = true ->
  getOpenOrders fuel pair log = Some (Rejected TypeError, log) /\
  (truthy pair = true -> getMarkets pair m log = Throw TypeError) /\
  (truthy pair = false ->
   exists info,
     get (exchangeMarkets m) (to_string pair) = Normal info /\
     getMarkets pair m log = Normal (Value info, m, log)).
Proof.
  intros Hpair Hflag Hsnap. repeat split.
  - unfold getOpenOrders. now rewrite (formatPairName_not_string _ Hpair).
  - intros Htruthy. unfold getMarkets.
    rewrite Hflag, Hsnap, Htruthy, (formatPairName_not_string _ Hpair).
    reflexivity.
  - intros Hfalsy. unfold getMarkets. rewrite Hflag, Hsnap, Hfalsy.
    cbn [bind].
    destruct (exchangeMarkets m); cbn in Hsnap; try discriminate;
      cbn [get bind]; eauto.
Qed.


(** X5. With a table that is an object, [formatNetworkName] never throws on
    a network identifier: it reads the table under the uppercase identifier
    and returns the [code] found there, falling back to the identifier as it
    was given (not uppercased) when the table has no such entry or the entry
    has no code. *)
Theorem formatNetworkName_fallback (table : list (string * value))
        (network : string) :
  networks = VObj table ->
  exists name,
    formatNetworkName (VStr network) = Normal name /\
    (lookup (upper network) table = None -> name = VStr network) /\
    (forall fields,
       lookup (upper network) table = Some (VObj fields) ->
       name = nullish (or_undefined (lookup "code" fields)) (VStr network)) /\
    (name = VStr network \/
     exists entry,
       lookup (upper network) table = Some entry /\
       get_opt entry "code" = Normal name).
Proof.
  intros ->. unfold formatNetworkName. cbn [toUpperCase bind get].
  rewrite (member_plain _ table (upper_not_inherited network)).
  destruct (lookup (upper network) table) as [entry|] eqn:E;
    cbn [or_undefined].
  - assert (Hcode : exists code, get_opt entry "code" = Normal code)
      by (destruct entry; cbn; eauto).
    destruct Hcode as [code Hcode]. rewrite Hcode. cbn [bind].
    exists (nullish code (VStr network)). repeat split.
    + discriminate.
    + intros fields Ef. injection Ef as ->. cbn [get_opt get] in Hcode.
      injection Hcode as <-. unfold member.
      now destruct (lookup "code" fields).
    + destruct code; cbn; auto; right; exists entry; auto.
  - cbn. exists (VStr network). repeat split; auto. discriminate.
Qed.

(** ** What the operations on the account throw and reject with *)

Lemma get_only_TypeError (v : value) (k : string) : only_TypeError (get v k).
Proof. intros e. destruct v; cbn; congruence. Qed.


Lemma spread_only_TypeError (v : value) : only_TypeError (spread v).
Proof. intros e. destruct v; cbn; congruence. Qed.

Lemma bind_only_TypeError {A B : Type} (c : completion A)
      (k : A -> completion B) :
  only_TypeError c -> (forall a, only_TypeError (k a)) ->
  only_TypeError (bind c k).
Proof.
  intros Hc Hk e. destruct c as [a|e']; cbn; [apply Hk|].
  intros H. injection H as <-. now apply Hc.
Qed.

Lemma Normal_only_TypeError {A : Type} (a : A) : only_TypeError (Normal a).
Proof. intros e H. discriminate H. Qed.


Lemma mapM_only_TypeError {A B : Type} (f : A -> completion B) (l : list A) :
  (forall x, only_TypeError (f x)) -> only_TypeError (mapM f l).
Proof.
  intros Hf. induction l as [|x l IH]; cbn; [apply Normal_only_TypeError|].
  apply bind_only_TypeError; [apply Hf|]. intros b.
  apply bind_only_TypeError; [exact IH|]. intros bs.
  apply Normal_only_TypeError.
Qed.


(** ** Balances *)

Lemma balance_record_is_balance (crypto r : value) :
  balance_record crypto = Normal r -> is_balance r.
Proof.
  unfold balance_record. intros H. do 5 bind_inv H. injection H as <-.
  do 4 eexists. split; [|reflexivity]. eapply toUpperCase_upper. eassumption.
Qed.

Lemma mapM_balance_records (cryptos all : list value) :
  mapM balance_record cryptos = Normal all -> Forall is_balance all.
Proof.
  intros H. apply mapM_Forall2 in H.
  induction H as [|crypto r cryptos all Hr _ IH]; constructor;
    [now apply (balance_record_is_balance crypto)|exact IH].
Qed.

Lemma filterM_has_funds (all : list value) :
  Forall is_balance all ->
  filterM has_funds all = Normal (filter funded all).
Proof.
  induction 1 as [|r all Hr _ IH]; cbn; [reflexivity|].
  destruct Hr as (code & free & freezed & total & _ & ->).
  rewrite IH. reflexivity.
Qed.


(** X7. Every record [getBalances] resolves with has the four fields [code],
    [free], [freezed] and [total], the code in uppercase and the amounts as
    numbers.  Asked for non-zero balances (the default), it resolves with
    the records of the full answer whose [free] or [freezed] is neither 0
    nor NaN, in the same order. *)
Theorem getBalances_records (nonzero : value) (log : calls)
        (records : list value) :
  fst (getBalances nonzero log) = Resolved (VArr records) ->
  Forall is_balance records /\
  exists all,
    fst (getBalances (VBool false) log) = Resolved (VArr all) /\
    Forall is_balance all /\
    records = (if truthy (default nonzero (VBool true))
               then filter funded all else all).
Proof.
  unfold getBalances, request. cbn [fst snd].
  destruct (fameEXApiClient log FameEXApi.getBalances) as [balances|e];
    cbn [await]; [|discriminate].
  destruct (spot_wallet balances) as [spotWallet|e]; cbn [bind];
    [|discriminate].
  destruct (as_array spotWallet) as [cryptos|e]; cbn; [|discriminate].
  destruct (mapM balance_record cryptos) as [all|e] eqn:Eall; cbn;
    [|discriminate].
  pose proof (mapM_balance_records _ _ Eall) as Hall.
  destruct (truthy (default nonzero (VBool true))); cbn.
  - rewrite (filterM_has_funds _ Hall). cbn. intros H. injection H as <-.
    split; [|exists all; auto].
    apply Forall_forall. intros r Hr. apply filter_In in Hr.
    rewrite Forall_forall in Hall. now apply Hall.
  - intros H. injection H as <-. split; [exact Hall|]. exists all. auto.
Qed.

(** ** One page of orders, again *)

Local Abbreviation page_at :=
  (page_at StringToNumber NumberToString NumberSubtract fameEXApiClient).
Local Abbreviation loop_advance :=
  (loop_advance StringToNumber NumberToString NumberSubtract fameEXApiClient).
Local Abbreviation getOpenOrders_enters_loop :=
  (getOpenOrders_enters_loop StringToNumber NumberToString NumberSubtract
     fameEXApiClient).
Local Abbreviation lt_num_below := (lt_num_below StringToNumber NumberToString).
Local Abbreviation lt_num_count := (lt_num_count StringToNumber NumberToString).
Local Abbreviation requests_log := (requests_log fameEXApiClient).
Local Abbreviation order_lookups_length := (order_lookups_length fameEXApiClient).

Lemma orders_of_only_TypeError (response : value) :
  only_TypeError (orders_of response).
Proof.
  unfold orders_of.
  apply bind_only_TypeError; [apply get_only_TypeError|]. intros data.
  apply bind_only_TypeError; [apply get_only_TypeError|]. intros orders.
  apply spread_only_TypeError.
Qed.

Lemma getOpenOrdersPage_quiet (pair pageNum : value) (log : calls) :
  settles_quietly (fst (getOpenOrdersPage pair pageNum log)).
Proof.
  unfold getOpenOrdersPage, settles_quietly.
  destruct (get pair "pairReadable") as [pairReadable|e] eqn:Er.
  2:{ right. right. cbn. now rewrite (get_only_TypeError _ _ e Er). }
  destruct (bind (get pair "coin1") _) as [queries|e]; [|now left].
  destruct (requests queries log) as [ps log1].
  destruct (promise_all ps) as [ordersData|e]; [|now left].
  destruct (mapM orders_of ordersData) as [lists|e] eqn:El; cbn [bind].
  2:{ right. right. cbn.
      now rewrite (mapM_only_TypeError _ _ orders_of_only_TypeError e El). }
  destruct (order_lookups pair (concat lists) log1) as [lookups log2].
  destruct (promise_all (map _ _)); cbn; [right; left; eauto|now left].
Qed.

(** X8. [getOpenOrdersPage] never passes the reason of a rejected request
    on: it resolves to [undefined], resolves to an array, or rejects with a
    TypeError of its own, as it does before any request for a pair that is
    [undefined] or [null]. *)
Theorem getOpenOrdersPage_outcomes (pair pageNum : value) (log : calls) :
  settles_quietly (fst (getOpenOrdersPage pair pageNum log)) /\
  (pair = VUndef \/ pair = VNull ->
   getOpenOrdersPage pair pageNum log = (Rejected TypeError, log)) /\
  (forall e log',
     getOpenOrdersPage pair pageNum log = (Rejected e, log') ->
     e = TypeError).
Proof.
  split; [apply getOpenOrdersPage_quiet|]. split.
  - intros [-> | ->]; reflexivity.
  - intros e log' H.
    pose proof (getOpenOrdersPage_quiet pair pageNum log) as Hq.
    rewrite H in Hq. cbn in Hq.
    destruct Hq as [Hq|[[items Hq]|Hq]]; try discriminate.
    now injection Hq.
Qed.






(** ** The loop over the pages, again *)

Lemma page_outcome_quiet (coinPair : value) (log : calls) (k : nat) :
  settles_quietly (page_outcome coinPair log k).
Proof. unfold page_outcome. apply getOpenOrdersPage_quiet. Qed.

(** An array comes out of the loop only at the first page that brings the
    count to the limit. *)
Lemma loop_result (coinPair limit : value) (log : calls) :
  forall fuel j orders final,
    getOpenOrders_loop fuel coinPair limit (accumulated coinPair log j)
                       (S j) (log_after_pages coinPair log j)
    = Some (Resolved (VArr orders), final) ->
    exists n,
      j < n <= j + fuel /\
      orders = accumulated coinPair log n /\
      final = log_after_pages coinPair log n /\
      lt_num (num_of_nat (List.length orders)) limit = false /\
      forall k, j < k < n ->
        lt_num (num_of_nat (List.length (accumulated coinPair log k))) limit
        = true.
Proof.
  induction fuel as [|fuel IH]; intros j orders final H; [discriminate H|].
  cbn [getOpenOrders_loop] in H. rewrite page_at in H.
  assert (Horders : forall items,
            page_outcome coinPair log (S j) = Resolved (VArr items) ->
            accumulated coinPair log j ++ items
            = accumulated coinPair log (S j)).
  { intros items E. cbn [accumulated]. unfold page_orders. now rewrite E. }
  destruct (page_outcome_quiet coinPair log (S j)) as [E|[[items E]|E]];
    rewrite E in H; cbn [truthy negb spread] in H; try discriminate H.
  rewrite (Horders items E) in H.
  destruct (lt_num _ limit) eqn:Elt.
  - apply IH in H. destruct H as (n & Hn & -> & -> & Hstop & Hbelow).
    exists n. repeat split; try assumption; try lia.
    intros k Hk. destruct (Nat.eq_dec k (S j)) as [->|Hne];
      [exact Elt|apply Hbelow; lia].
  - injection H as <- <-. exists (S j). repeat split; try lia. exact Elt.
Qed.

(** X11. Every array [getOpenOrders] resolves with is made of whole pages:
    the orders of pages 1 to [n], where [n] is the first page that brings the
    count to the reported total; so it never holds fewer orders than the
    total, and the pages requested are exactly 1 to [n]. *)
Theorem getOpenOrders_array_is_whole_pages
        (pair coinPair response total : value) (c : FameEXApi.call)
        (log final : calls) (t : Q) (fuel : nat) (orders : list value) :
  formatPairName pair = Normal coinPair ->
  total_lookup coinPair = Normal c ->
  fameEXApiClient log c = Resolved response ->
  read_total response = Normal total ->
  to_number total = Fin t ->
  getOpenOrders fuel pair log = Some (Resolved (VArr orders), final) ->
  exists n,
    1 <= n <= fuel /\
    orders = accumulated coinPair (log ++ [c]) n /\
    final = log_after_pages coinPair (log ++ [c]) n /\
    (t <= count orders)%Q /\
    forall k, 1 <= k < n ->
      (count (accumulated coinPair (log ++ [c]) k) < t)%Q.
Proof.
  intros Hpair Hc Hresponse Htotal Ht H.
  rewrite (getOpenOrders_enters_loop _ _ _ _ _ _ fuel
             Hpair Hc Hresponse Htotal) in H.
  change (@nil value) with (accumulated coinPair (log ++ [c]) 0) in H.
  change (log ++ [c]) with (log_after_pages coinPair (log ++ [c]) 0) in H at 2.
  apply loop_result in H. destruct H as (n & Hn & -> & -> & Hstop & Hbelow).
  exists n. repeat split; try lia.
  - rewrite (lt_num_count _ _ _ Ht) in Hstop.
    apply negb_false_iff in Hstop. now apply Qle_bool_iff in Hstop.
  - intros k Hk. specialize (Hbelow k ltac:(lia)).
    rewrite (lt_num_count _ _ _ Ht) in Hbelow.
    apply negb_true_iff in Hbelow.
    destruct (Qlt_le_dec (count (accumulated coinPair (log ++ [c]) k)) t)
      as [Hlt|Hle]; [exact Hlt|].
    apply Qle_bool_iff in Hle. congruence.
Qed.

(** X12. The loop has no bound of its own: when every page is an array and
    the count stays below the reported total for ever (empty pages and a
    positive total, say), [getOpenOrders] goes on requesting pages and has
    not returned after any number of them. *)
Theorem getOpenOrders_can_run_for_ever
        (pair coinPair response total : value) (c : FameEXApi.call)
        (log : calls) (t : Q) :
  formatPairName pair = Normal coinPair ->
  total_lookup coinPair = Normal c ->
  fameEXApiClient log c = Resolved response ->
  read_total response = Normal total ->
  to_number total = Fin t ->
  (forall k, 1 <= k ->
     page_outcome coinPair (log ++ [c]) k
     = Resolved (VArr (page_orders coinPair (log ++ [c]) k)) /\
     (count (accumulated coinPair (log ++ [c]) k) < t)%Q) ->
  forall fuel, getOpenOrders fuel pair log = None.
Proof.
  intros Hpair Hc Hresponse Htotal Ht Hpages fuel.
  rewrite (getOpenOrders_enters_loop _ _ _ _ _ _ fuel
             Hpair Hc Hresponse Htotal).
  change (@nil value) with (accumulated coinPair (log ++ [c]) 0).
  change (log ++ [c]) with (log_after_pages coinPair (log ++ [c]) 0) at 2.
  replace fuel with (fuel + 0) at 1 by lia.
  rewrite loop_advance; [reflexivity|].
  intros k Hk. destruct (Hpages k) as [Hp Hlt]; [lia|].
  split; [exact Hp|]. now apply (lt_num_below _ _ t).
Qed.

(** ** The cached catalogs, again *)

Lemma assign_NoDup (k : string) (v : value) (ps : list (string * value)) :
  NoDup (keys ps) -> NoDup (keys (assign k v ps)).
Proof.
  induction ps as [|[k' v'] ps IH]; cbn; intros H.
  - constructor; [intros []|constructor].
  - inversion H as [|? ? Hnotin Hrest]; subst.
    destruct (String.eqb_spec k k') as [->|Hne]; cbn.
    + constructor; assumption.
    + constructor; [|now apply IH].
      intros Hin. apply Hnotin. clear - Hin Hne.
      induction ps as [|[k'' v''] ps IH]; cbn in *.
      * destruct Hin as [E|[]]. now elim Hne.
      * destruct (String.eqb_spec k k'') as [->|Hne'']; cbn in *; [exact Hin|].
        destruct Hin as [E|Hin]; [now left|right; now apply IH].
Qed.

Lemma assign_Forall (Q : string * value -> Prop) (k : string) (v : value)
      (ps : list (string * value)) :
  Q (k, v) -> Forall Q ps -> Forall Q (assign k v ps).
Proof.
  intros Hk. induction ps as [|[k' v'] ps IH]; cbn; intros H.
  - repeat constructor. exact Hk.
  - inversion H; subst. destruct (String.eqb k k').
    + constructor; assumption.
    + constructor; [assumption|now apply IH].
Qed.

Lemma lookup_In (k : string) (v : value) (ps : list (string * value)) :
  NoDup (keys ps) -> In (k, v) ps -> lookup k ps = Some v.
Proof.
  induction ps as [|[k' v'] ps IH]; cbn; [contradiction|].
  intros Hnd [E|Hin]; inversion Hnd as [|? ? Hnotin Hrest]; subst.
  - injection E as -> ->. now rewrite String.eqb_refl.
  - destruct (String.eqb_spec k k') as [->|_]; [|now apply IH].
    elim Hnotin. unfold keys. change k' with (fst (k', v)).
    now apply in_map.
Qed.

Lemma formatPairName_Normal (pair coinPair : value) :
  formatPairName pair = Normal coinPair ->
  exists coin1 coin2, coinPair = pair_object coin1 coin2.
Proof.
  unfold formatPairName. intros H. bind_inv H. bind_inv H.
  injection H as <-.
  destruct x as [| | | |s| | |]; try discriminate E0. injection E0 as <-.
  destruct (split s) as [|coin1 rest] eqn:Es; [elim (split_not_nil _ Es)|].
  exists coin1, (hd_error rest). destruct rest; reflexivity.
Qed.

(** X13. The map a currency refresh builds has one entry per uppercase
    symbol: its keys are uppercase and pairwise different (of two vendor
    currencies with the same name in uppercase, the later one replaces the
    earlier), each entry carries its key as [symbol] and as [name], and
    reading the map under a key gives back that entry. *)
Theorem merged_currencies_by_symbol
        (currenciesData currenciesWithNetworks : value)
        (result : list (string * value)) :
  merge_currencies currenciesData currenciesWithNetworks = Normal result ->
  NoDup (keys result) /\
  forall k v,
    In (k, v) result ->
    upper k = k /\
    get v "symbol" = Normal (VStr k) /\
    get v "name" = Normal (VStr k) /\
    get (VObj result) k = Normal v.
Proof.
  intros H. unfold merge_currencies in H. do 5 bind_inv H.
  set (Q := fun kv : string * value =>
              upper (fst kv) = fst kv /\
              get (snd kv) "symbol" = Normal (VStr (fst kv)) /\
              get (snd kv) "name" = Normal (VStr (fst kv))).
  assert (Hinv : NoDup (keys result) /\ Forall Q result).
  { refine (reduce_invariant (fun r => NoDup (keys r) /\ Forall Q r)
              _ _ _ [] result (conj (NoDup_nil _) (Forall_nil _)) H).
    intros acc coin acc' [Hnd Hq] Hstep. cbn beta in Hstep.
    bind_inv Hstep. bind_inv Hstep. injection Hstep as <-.
    split; [now apply assign_NoDup|].
    apply assign_Forall; [|exact Hq].
    unfold currencyInfo_record in E5. do 7 bind_inv E5.
    injection E5 as <-. unfold Q. cbn [fst snd].
    repeat split; try reflexivity.
    eapply toUpperCase_upper. eassumption. }
  destruct Hinv as [Hnd Hq]. split; [exact Hnd|].
  intros k v Hin. rewrite Forall_forall in Hq.
  destruct (Hq _ Hin) as (Hu & Hs & Hn). cbn [fst snd] in *.
  repeat split; try assumption.
  cbn [get]. now rewrite (member_own _ _ _ (lookup_In _ _ _ Hnd Hin)).
Qed.

(** X14. The map a market refresh builds has one entry per readable pair
    name: its keys are pairwise different, each key is the [pairReadable] of
    its entry, made of the entry's [coin1] and [coin2] around a '/', and
    reading the map under a key gives back that entry. *)
Theorem merged_markets_by_pair (markets : value)
        (result : list (string * value)) :
  merge_markets markets = Normal result ->
  NoDup (keys result) /\
  forall k v,
    In (k, v) result ->
    get v "pairReadable" = Normal (VStr k) /\
    (exists coin1 coin2,
       k = (coin1 ++ "/" ++ token_text coin2)%string /\
       get v "coin1" = Normal (VStr coin1) /\
       get v "coin2" = Normal (token coin2) /\
       get v "pairPlain"
       = Normal (VStr (coin1 ++ "_" ++ token_text coin2))) /\
    get (VObj result) k = Normal v.
Proof.
  intros H. unfold merge_markets in H. do 2 bind_inv H.
  set (Q := fun kv : string * value =>
              get (snd kv) "pairReadable" = Normal (VStr (fst kv)) /\
              exists coin1 coin2,
                fst kv = (coin1 ++ "/" ++ token_text coin2)%string /\
                get (snd kv) "coin1" = Normal (VStr coin1) /\
                get (snd kv) "coin2" = Normal (token coin2) /\
                get (snd kv) "pairPlain"
                = Normal (VStr (coin1 ++ "_" ++ token_text coin2))).
  assert (Hinv : NoDup (keys result) /\ Forall Q result).
  { refine (reduce_invariant (fun r => NoDup (keys r) /\ Forall Q r)
              _ _ _ [] result (conj (NoDup_nil _) (Forall_nil _)) H).
    intros acc market acc' [Hnd Hq] Hstep. cbn beta in Hstep.
    bind_inv Hstep. injection Hstep as <-.
    split; [now apply assign_NoDup|].
    apply assign_Forall; [|exact Hq].
    unfold marketInfo_record in E1. do 2 bind_inv E1.
    match goal with
    | Hf : formatPairName _ = Normal _ |- _ =>
        destruct (formatPairName_Normal _ _ Hf) as (coin1 & coin2 & ->)
    end.
    cbn in E1. do 4 bind_inv E1. injection E1 as <-.
    unfold Q. cbn [fst snd]. split; [reflexivity|].
    exists coin1, coin2. repeat split. }
  destruct Hinv as [Hnd Hq]. split; [exact Hnd|].
  intros k v Hin. rewrite Forall_forall in Hq.
  destruct (Hq _ Hin) as (Hr & Hcoins). cbn [fst snd] in *.
  repeat split; try assumption.
  cbn [get]. now rewrite (member_own _ _ _ (lookup_In _ _ _ Hnd Hin)).
Qed.

(** What a call of [getCurrencies] does, by cases. *)
Lemma getCurrencies_cases (coin forceUpdate : value) (m m1 : exports)
      (log log1 : calls) (r : returned) :
  getCurrencies coin forceUpdate m log = Normal (r, m1, log1) ->
  (exists v, r = Value v /\ m1 = m /\ log1 = log) \/
  (gettingCurrencies m = false /\
   (truthy (exchangeCurrencies m) = false \/ truthy forceUpdate = true) /\
   r = Promise [ fameEXApiClient log FameEXApi.currencies;
                 fameEXApiClient (log ++ [FameEXApi.currencies])
                                 FameEXApi.currenciesWithNetwork ] /\
   m1 = set_gettingCurrencies true m /\
   log1 = log ++ [FameEXApi.currencies; FameEXApi.currenciesWithNetwork]).
Proof.
  unfold getCurrencies, request.
  destruct (gettingCurrencies m) eqn:Ef.
  { intros H. injection H as <- <- <-. left. eauto. }
  destruct (truthy (exchangeCurrencies m)) eqn:Es; cbn [andb].
  - destruct (truthy forceUpdate) eqn:Eu; cbn [negb].
    + intros H. injection H as <- <- <-. right.
      rewrite <- app_assoc. repeat split; auto.
    + intros H. bind_inv H. injection H as <- <- <-. left. eauto.
  - intros H. injection H as <- <- <-. right.
    rewrite <- app_assoc. repeat split; auto.
Qed.

Lemma getCurrencies_settled_effects (upstream : list outcome) (m : exports) :
  let (v, m') := getCurrencies_settled upstream m in
  gettingMarkets m' = gettingMarkets m /\
  exchangeMarkets m' = exchangeMarkets m /\
  (v = VUndef -> exchangeCurrencies m' = exchangeCurrencies m) /\
  (exchangeCurrencies m' = exchangeCurrencies m \/ exchangeCurrencies m' = v).
Proof.
  unfold getCurrencies_settled, getCurrencies_then, getCurrencies_catch.
  destruct (promise_all upstream) as [[|a [|b [|]]]|e]; cbn; auto.
  destruct (merge_currencies a b) as [[|entry result]|e]; cbn; auto.
  repeat split; auto. discriminate.
Qed.

(** X15. A call of [getCurrencies] that finds no refresh flagged leaves the
    flag cleared once its callbacks have run, whatever the requests did; it
    never touches the market snapshot or the market flag; it requests
    nothing or the two lists; and when it ends in [undefined] the currency
    snapshot is the one from before: a failed refresh keeps the stale
    snapshot. *)
Theorem getCurrencies_alone_effects (coin forceUpdate v : value)
        (m m' : exports) (log log' : calls) :
  gettingCurrencies m = false ->
  getCurrencies_alone coin forceUpdate m log = Normal (v, m', log') ->
  gettingCurrencies m' = false /\
  gettingMarkets m' = gettingMarkets m /\
  exchangeMarkets m' = exchangeMarkets m /\
  (v = VUndef -> exchangeCurrencies m' = exchangeCurrencies m) /\
  (exchangeCurrencies m' = exchangeCurrencies m \/ exchangeCurrencies m' = v) /\
  (log' = log \/
   log' = log ++ [FameEXApi.currencies; FameEXApi.currenciesWithNetwork]).
Proof.
  intros Hflag H. unfold getCurrencies_alone in H. bind_inv H.
  destruct x as [[r m1] log1].
  destruct (getCurrencies_cases _ _ _ _ _ _ _ E)
    as [(info & -> & -> & ->)|(_ & _ & -> & -> & ->)].
  - injection H as <- <- <-. repeat split; auto.
  - pose proof (getCurrencies_settled_effects
                  [ fameEXApiClient log FameEXApi.currencies;
                    fameEXApiClient (log ++ [FameEXApi.currencies])
                                    FameEXApi.currenciesWithNetwork ]
                  (set_gettingCurrencies true m)) as Heff.
    destruct (getCurrencies_settled _ _) as [v2 m2].
    injection H as <- <- <-.
    destruct Heff as (H1 & H2 & H3 & H4). cbn in *.
    repeat split; auto.
Qed.

Lemma getMarkets_settled_effects (upstream : list outcome) (m : exports) :
  let (v, m') := getMarkets_settled upstream m in
  gettingCurrencies m' = gettingCurrencies m /\
  exchangeCurrencies m' = exchangeCurrencies m /\
  (v = VUndef -> exchangeMarkets m' = exchangeMarkets m) /\
  (exchangeMarkets m' = exchangeMarkets m \/ exchangeMarkets m' = v).
Proof.
  unfold getMarkets_settled, getMarkets_then, getMarkets_catch.
  destruct (promise_all upstream) as [[|a [|]]|e]; cbn; auto.
  destruct (merge_markets a) as [[|entry result]|e]; cbn; auto.
  repeat split; auto. discriminate.
Qed.

(** X16. [getMarkets] has no forced refresh: once a market snapshot is
    stored, a call that finds no refresh flagged only reads it, requests
    nothing and changes nothing.  Without a snapshot it requests the market
    list once, leaves the flag cleared after its callbacks, never touches the
    currency snapshot or the currency flag, and keeps the snapshot as it was
    when it ends in [undefined]. *)
Theorem getMarkets_alone_effects (pair v : value) (m m' : exports)
        (log log' : calls) :
  gettingMarkets m = false ->
  getMarkets_alone pair m log = Normal (v, m', log') ->
  (truthy (exchangeMarkets m) = true -> m' = m /\ log' = log) /\
  (truthy (exchangeMarkets m) = false -> log' = log ++ [FameEXApi.markets]) /\
  gettingMarkets m' = false /\
  gettingCurrencies m' = gettingCurrencies m /\
  exchangeCurrencies m' = exchangeCurrencies m /\
  (v = VUndef -> exchangeMarkets m' = exchangeMarkets m).
Proof.
  intros Hflag H. unfold getMarkets_alone, getMarkets, request in H.
  rewrite Hflag in H.
  destruct (truthy (exchangeMarkets m)) eqn:Es.
  - cbn [bind] in H. bind_inv H. bind_inv E. bind_inv E.
    injection E as <-. cbn [bind] in H. injection H as <- <- <-.
    repeat split; auto. discriminate.
  - cbn [bind] in H.
    pose proof (getMarkets_settled_effects
                  [fameEXApiClient log FameEXApi.markets]
                  (set_gettingMarkets true m)) as Heff.
    destruct (getMarkets_settled _ _) as [v2 m2].
    injection H as <- <- <-.
    destruct Heff as (H1 & H2 & H3 & H4). cbn in *.
    repeat split; auto; discriminate.
Qed.

Lemma merge_currencies_NoDup (currenciesData currenciesWithNetworks : value)
      (result : list (string * value)) :
  merge_currencies currenciesData currenciesWithNetworks = Normal result ->
  NoDup (keys result).
Proof.
  intros H. unfold merge_currencies in H. do 5 bind_inv H.
  refine (reduce_invariant (fun r => NoDup (keys r))
            _ _ _ [] result (NoDup_nil _) H).
  intros acc coin acc' Hnd Hstep. cbn beta in Hstep.
  do 2 bind_inv Hstep. injection Hstep as <-. now apply assign_NoDup.
Qed.

Lemma merge_markets_NoDup (markets : value) (result : list (string * value)) :
  merge_markets markets = Normal result -> NoDup (keys result).
Proof.
  intros H. unfold merge_markets in H. do 2 bind_inv H.
  refine (reduce_invariant (fun r => NoDup (keys r))
            _ _ _ [] result (NoDup_nil _) H).
  intros acc market acc' Hnd Hstep. cbn beta in Hstep.
  bind_inv Hstep. injection Hstep as <-. now apply assign_NoDup.
Qed.

Lemma currencyInfo_hit (k : string) (props : list (string * value))
      (m : exports) (log : calls) :
  gettingCurrencies m = false ->
  exchangeCurrencies m = VObj props ->
  currencyInfo (VStr k) m log = Normal (Value (member props k), m, log).
Proof.
  intros Hflag Hsnap. unfold currencyInfo, getCurrencies.
  now rewrite Hflag, Hsnap.
Qed.

(** X17. A refresh that resolves with a map that has entries is served from
    then on: the [currencies] getter returns that map, and [currencyInfo] of
    any of its symbols returns the entry of that symbol at once, without a
    request. *)
Theorem refreshed_currencies_are_served
        (coin forceUpdate : value) (m m' : exports) (log log' : calls)
        (result : list (string * value)) :
  gettingCurrencies m = false ->
  truthy (exchangeCurrencies m) = false \/ truthy forceUpdate = true ->
  getCurrencies_alone coin forceUpdate m log = Normal (VObj result, m', log') ->
  result <> [] ->
  get_currencies m' = VObj result /\
  forall k v,
    In (k, v) result ->
    currencyInfo (VStr k) m' log' = Normal (Value v, m', log').
Proof.
  intros Hflag Hmiss H Hsome. unfold getCurrencies_alone in H.
  rewrite (getCurrencies_starts_refresh NumberToString fameEXApiClient
             coin forceUpdate m log Hflag Hmiss) in H.
  cbn [bind] in H.
  unfold getCurrencies_settled, getCurrencies_then, getCurrencies_catch in H.
  destruct (promise_all _) as [[|a [|b [|]]]|e]; try discriminate H.
  destruct (merge_currencies a b) as [merged|e] eqn:Emerge;
    [|discriminate H].
  injection H as -> <- <-.
  destruct result as [|entry result]; [now elim Hsome|].
  pose proof (merge_currencies_NoDup _ _ _ Emerge) as Hnd.
  split; [reflexivity|]. intros k v Hin.
  rewrite (currencyInfo_hit k (entry :: result)); [|reflexivity..].
  now rewrite (member_own _ _ _ (lookup_In _ _ _ Hnd Hin)).
Qed.

Lemma marketInfo_hit (pair : string) (props : list (string * value))
      (m : exports) (log : calls) :
  gettingMarkets m = false ->
  exchangeMarkets m = VObj props ->
  pair <> EmptyString ->
  exists coin1 rest,
    split (upper pair) = coin1 :: rest /\
    marketInfo (VStr pair) m log
    = Normal (Value (or_undefined
                       (lookup (coin1 ++ "/" ++ token_text (hd_error rest))
                               props)), m, log).
Proof.
  intros Hflag Hsnap Hpair. unfold marketInfo, getMarkets.
  rewrite Hflag, Hsnap. cbn [truthy].
  destruct pair as [|c pair]; [now elim Hpair|]. cbn [String.eqb negb].
  destruct (split (upper (String c pair))) as [|coin1 rest] eqn:Es;
    [elim (split_not_nil _ Es)|].
  exists coin1, rest. split; [reflexivity|].
  rewrite <- (member_plain _ props
                (slash_not_inherited coin1 (token_text (hd_error rest)))).
  unfold formatPairName. cbn [toUpperCase bind]. rewrite Es.
  destruct rest; reflexivity.
Qed.

(** X18. The two catalogs are read differently.  [currencyInfo] looks the
    coin up as it is written: on a snapshot with uppercase keys a symbol
    with a lowercase letter finds no currency, and the call returns what a
    plain object inherits under that name, [undefined] for every name but
    those of [Object.prototype].  [marketInfo] normalises the pair first: any
    spelling of two tokens, in any case and with any of the three separators,
    reads the entry stored under their uppercase readable name. *)
Theorem catalog_lookups (coin a b : string) (sep : ascii)
        (currencies markets : list (string * value))
        (m : exports) (log : calls) :
  gettingCurrencies m = false ->
  gettingMarkets m = false ->
  exchangeCurrencies m = VObj currencies ->
  exchangeMarkets m = VObj markets ->
  Forall (fun k => upper k = k) (keys currencies) ->
  upper coin <> coin ->
  separator_free a = true ->
  separator_free b = true ->
  is_separator sep = true ->
  currencyInfo (VStr coin) m log
  = Normal (Value (or_undefined (lookup coin Object_prototype)), m, log) /\
  (~ In coin (keys Object_prototype) ->
   currencyInfo (VStr coin) m log = Normal (Value VUndef, m, log)) /\
  (In coin (keys Object_prototype) ->
   exists o,
     currencyInfo (VStr coin) m log = Normal (Value (VBuiltin o), m, log)) /\
  currencyInfo (VStr (upper coin)) m log
  = Normal (Value (or_undefined (lookup (upper coin) currencies)), m, log) /\
  marketInfo (VStr (a ++ String sep b)) m log
  = Normal (Value (or_undefined (lookup (upper a ++ "/" ++ upper b) markets)),
            m, log).
Proof.
  intros Hfc Hfm Hc Hm Hkeys Hcoin Ha Hb Hsep.
  assert (Hnone : lookup coin currencies = None).
  { apply lookup_absent. intros Hin. rewrite Forall_forall in Hkeys.
    now apply Hcoin, Hkeys. }
  assert (Hhit : currencyInfo (VStr coin) m log
                 = Normal (Value (or_undefined (lookup coin Object_prototype)),
                           m, log)).
  { rewrite (currencyInfo_hit coin currencies); auto.
    now rewrite (member_not_own _ _ Hnone). }
  split; [exact Hhit|]. split; [|split; [|split]].
  - intros Hname. rewrite Hhit. now rewrite (lookup_absent _ _ Hname).
  - intros Hname. rewrite Hhit. unfold keys in Hname.
    apply in_map_iff in Hname. destruct Hname as [[k v] [Hk Hin]].
    cbn in Hk. subst k.
    destruct (Object_prototype_builtin _ _ Hin) as [o ->].
    exists o. now rewrite (Object_prototype_lookup _ _ Hin).
  - rewrite (currencyInfo_hit (upper coin) currencies); auto.
    now rewrite (member_plain _ _ (upper_not_inherited coin)).
  - destruct (marketInfo_hit (a ++ String sep b) markets m log Hfm Hm)
      as (coin1 & rest & Hsplit & ->).
    { destruct a; discriminate. }
    rewrite upper_app in Hsplit. cbn [upper] in Hsplit.
    rewrite (split_two (upper a) (upper b) (upper_ascii sep)) in Hsplit;
      try (now rewrite separator_free_upper);
      try (now rewrite is_separator_upper).
    injection Hsplit as <- <-. reflexivity.
Qed.

(** X19. A market a refresh has stored is found under every spelling of its
    pair: when the merged map has the entry [v] under the readable name of
    the tokens [a] and [b], [marketInfo] of [a] and [b] joined by any of the
    three separators, in any case, returns [v]. *)
Theorem refreshed_markets_are_served (answer : value) (a b : string)
        (sep : ascii) (result : list (string * value)) (v : value)
        (m : exports) (log : calls) :
  merge_markets answer = Normal result ->
  gettingMarkets m = false ->
  exchangeMarkets m = VObj result ->
  In ((upper a ++ "/" ++ upper b)%string, v) result ->
  separator_free a = true ->
  separator_free b = true ->
  is_separator sep = true ->
  marketInfo (VStr (a ++ String sep b)) m log = Normal (Value v, m, log).
Proof.
  intros Hmerge Hflag Hsnap Hin Ha Hb Hsep.
  destruct (marketInfo_hit (a ++ String sep b) result m log Hflag Hsnap)
    as (coin1 & rest & Hsplit & ->).
  { destruct a; discriminate. }
  rewrite upper_app in Hsplit. cbn [upper] in Hsplit.
  rewrite (split_two (upper a) (upper b) (upper_ascii sep)) in Hsplit;
    try (now rewrite separator_free_upper);
    try (now rewrite is_separator_upper).
  injection Hsplit as <- <-. cbn [hd_error token_text].
  now rewrite (lookup_In _ _ _ (merge_markets_NoDup _ _ Hmerge) Hin).
Qed.

(** ** Construction of the adapter *)

Lemma truthy_get (v : value) (k : string) :
  truthy v = true -> exists x, get v k = Normal x.
Proof. destruct v; cbn; try discriminate; eauto. Qed.

Lemma getCurrencies_without_arguments (m : exports) (log : calls) :
  let fetch := (negb (gettingCurrencies m)
                && negb (truthy (exchangeCurrencies m)))%bool in
  exists r,
    getCurrencies VUndef VUndef m log
    = Normal (r,
              if fetch then set_gettingCurrencies true m else m,
              log ++ if fetch
                     then [FameEXApi.currencies; FameEXApi.currenciesWithNetwork]
                     else []).
Proof.
  unfold getCurrencies, request.
  destruct (gettingCurrencies m); cbn [negb andb].
  { rewrite app_nil_r. eauto. }
  destruct (truthy (exchangeCurrencies m)) eqn:Es; cbn [negb andb truthy].
  - destruct (truthy_get _ (to_string VUndef) Es) as [info ->].
    cbn [bind]. rewrite app_nil_r. eauto.
  - rewrite <- app_assoc. eauto.
Qed.

Lemma getMarkets_without_arguments (m : exports) (log : calls) :
  let fetch := (negb (gettingMarkets m)
                && negb (truthy (exchangeMarkets m)))%bool in
  exists r,
    getMarkets VUndef m log
    = Normal (r,
              if fetch then set_gettingMarkets true m else m,
              log ++ if fetch then [FameEXApi.markets] else []).
Proof.
  unfold getMarkets, request.
  destruct (gettingMarkets m); cbn [negb andb].
  { rewrite app_nil_r. eauto. }
  destruct (truthy (exchangeMarkets m)) eqn:Es; cbn [negb andb truthy bind].
  - destruct (truthy_get _ (to_string VUndef) Es) as [info ->].
    cbn [bind]. rewrite app_nil_r. eauto.
  - eauto.
Qed.

(** X20. Constructing the adapter never throws and requests only what is
    missing: with [loadMarket] (true when omitted) it requests the two
    currency lists unless a currency refresh is flagged or a currency
    snapshot is stored, and the market list unless a market refresh is
    flagged or a market snapshot is stored; without [loadMarket] it requests
    nothing.  It sets the flag of what it requests and stores no
    snapshot. *)
Theorem initialise_requests_what_is_missing
        (loadMarket : value) (m : exports) (log : calls) :
  let wanted := truthy (default loadMarket (VBool true)) in
  let fetch_currencies :=
    (wanted && negb (gettingCurrencies m)
     && negb (truthy (exchangeCurrencies m)))%bool in
  let fetch_markets :=
    (wanted && negb (gettingMarkets m)
     && negb (truthy (exchangeMarkets m)))%bool in
  exists rs m',
    initialise loadMarket m log
    = Normal (rs, m',
              log ++ (if fetch_currencies
                      then [FameEXApi.currencies;
                            FameEXApi.currenciesWithNetwork]
                      else [])
                  ++ (if fetch_markets then [FameEXApi.markets] else [])) /\
    exchangeCurrencies m' = exchangeCurrencies m /\
    exchangeMarkets m' = exchangeMarkets m /\
    gettingCurrencies m' = (gettingCurrencies m || fetch_currencies)%bool /\
    gettingMarkets m' = (gettingMarkets m || fetch_markets)%bool.
Proof.
  unfold initialise.
  destruct (truthy (default loadMarket (VBool true))); cbn [andb].
  2:{ exists [], m. rewrite !app_nil_r, !orb_false_r. auto. }
  destruct (getCurrencies_without_arguments m log) as [r1 ->]. cbn [bind].
  set (fc := (negb (gettingCurrencies m)
              && negb (truthy (exchangeCurrencies m)))%bool).
  set (m1 := if fc then set_gettingCurrencies true m else m).
  destruct (getMarkets_without_arguments m1
              (log ++ if fc
                      then [FameEXApi.currencies;
                            FameEXApi.currenciesWithNetwork]
                      else [])) as [r2 ->].
  cbn [bind].
  assert (Hm1 : gettingMarkets m1 = gettingMarkets m /\
                exchangeMarkets m1 = exchangeMarkets m /\
                exchangeCurrencies m1 = exchangeCurrencies m /\
                gettingCurrencies m1 = (gettingCurrencies m || fc)%bool).
  { subst m1 fc. destruct (gettingCurrencies m) eqn:Eg; cbn; auto.
    destruct (truthy (exchangeCurrencies m)); cbn; auto. }
  destruct Hm1 as (Hgm & Hem & Hec & Hgc). rewrite Hgm, Hem.
  set (fm := (negb (gettingMarkets m)
              && negb (truthy (exchangeMarkets m)))%bool).
  eexists _, _. split; [now rewrite <- app_assoc|].
  subst fm. destruct (gettingMarkets m) eqn:Egm; cbn; auto.
  destruct (truthy (exchangeMarkets m)); cbn; rewrite ?orb_false_r; auto.
Qed.

(** ** Schedules whose callbacks run back to back *)

Local Abbreviation getCurrencies_in_flight :=
  (getCurrencies_in_flight NumberToString fameEXApiClient).

Lemma run_app (es es' : list event) (s : system) :
  run (es ++ es') s
  = match run es s with
    | Some s1 => run es' s1
    | None => None
    end.
Proof.
  revert s. induction es as [|e es IH]; intros s; cbn; [reflexivity|].
  destruct (step e s); [apply IH|reflexivity].
Qed.

Lemma at_rest_job (j : job) (s s' : system) :
  at_rest s -> run (events_of_job j) s = Some s' -> at_rest s'.
Proof.
  intros (Hfin & Hlen & Hflag) H. destruct j as [coin forceUpdate|i].
  - cbn in H.
    destruct (getCurrencies coin forceUpdate (fields s) (issued s))
      as [[[r m1] log1]|e] eqn:E; [|discriminate H].
    destruct (getCurrencies_cases _ _ _ _ _ _ _ E)
      as [(info & -> & -> & ->)|(Hf & _ & -> & -> & ->)];
      injection H as <-; unfold at_rest; cbn.
    + auto.
    + assert (Hnone : refreshing s = []).
      { destruct (refreshing s) as [|u us] eqn:Er; [reflexivity|].
        assert (Ht : gettingCurrencies (fields s) = true)
          by (apply Hflag; discriminate).
        congruence. }
      rewrite Hnone. cbn. repeat split; auto. discriminate.
  - cbn in H.
    destruct (nth_error (refreshing s) i) as [upstream|] eqn:En;
      [|discriminate H].
    destruct (getCurrencies_settled upstream (fields s)) as [v m1].
    cbn in H. injection H as <-. unfold at_rest. cbn.
    assert (Hdrop : drop_nth i (refreshing s) = []).
    { destruct (refreshing s) as [|u [|u' us]]; cbn in *.
      - destruct i; discriminate En.
      - destruct i as [|[|i]]; cbn in *; try discriminate En; reflexivity.
      - lia. }
    rewrite Hdrop. cbn. repeat split; auto; try discriminate.
Qed.

(** X21. As long as the [finally] callback of a refresh runs right after its
    [then] or [catch], with no call of [getCurrencies] in between, at most
    one currency refresh is ever in flight, the flag is set exactly while
    one is, and the requests go out in pairs. *)
Theorem refreshes_do_not_overlap_at_rest (jobs : list job) (s s' : system) :
  at_rest s ->
  run (events_of jobs) s = Some s' ->
  at_rest s' /\
  List.length (refreshing s') <= 1 /\
  exists pairs,
    List.length (issued s')
    = List.length (issued s) + 2 * pairs.
Proof.
  revert s. induction jobs as [|j jobs IH]; intros s Hs H.
  - cbn in H. injection H as <-. split; [exact Hs|].
    split; [apply Hs|]. exists 0. lia.
  - cbn [events_of flat_map] in H. rewrite run_app in H.
    destruct (run (events_of_job j) s) as [s1|] eqn:E1; [|discriminate H].
    pose proof (at_rest_job j s s1 Hs E1) as Hs1.
    destruct (IH s1 Hs1 H) as (Hrest & Hlen & pairs & Hpairs).
    split; [exact Hrest|]. split; [exact Hlen|].
    assert (Hone : exists n, List.length (issued s1)
                             = List.length (issued s) + 2 * n).
    { destruct j as [coin forceUpdate|i]; cbn in E1.
      - destruct (getCurrencies coin forceUpdate (fields s) (issued s))
          as [[[r m1] log1]|e] eqn:E; [|discriminate E1].
        destruct (getCurrencies_cases _ _ _ _ _ _ _ E)
          as [(info & -> & -> & ->)|(Hf & _ & -> & -> & ->)];
          injection E1 as <-; cbn.
        + exists 0. lia.
        + exists 1. rewrite length_app. cbn. lia.
      - destruct (nth_error (refreshing s) i); [|discriminate E1].
        destruct (getCurrencies_settled _ _) as [v m1].
        cbn in E1. injection E1 as <-. cbn. exists 0. lia. }
    destruct Hone as [n Hn]. exists (n + pairs). lia.
Qed.

End More.

(** ** The further properties on the concrete collaborators *)

Section MoreRuns.

Local Abbreviation S2N := Example.StringToNumber.
Local Abbreviation N2S := Example.NumberToString.
Local Abbreviation Sub := Example.NumberSubtract.
Local Abbreviation table := Example.networks.

Lemma formatPairName_spellings_witness :
  formatPairName (VStr "btc-usdt") = Normal Example.btc_usdt /\
  formatPairName (VStr "Btc/Usdt") = formatPairName (VStr "btc-usdt").
Proof.
  exact (formatPairName_spellings "btc" "usdt" "Btc" "Usdt" "-" "/"
           eq_refl eq_refl eq_refl eq_refl eq_refl eq_refl).
Defined.

Lemma formatPairName_again_witness :
  formatPairName (VStr "BTC/USDT")
  = Normal (pair_object "BTC" (Some "USDT"%string)) /\
  formatPairName (VStr "BTC/undefined")
  = Normal (pair_object "BTC" (Some "UNDEFINED"%string)).
Proof.
  split.
  - destruct (formatPairName_again "btc_usdt_x" "BTC" ["USDT"; "X"]%string
                eq_refl) as [Htwo _].
    destruct (Htwo "USDT"%string ["X"%string] eq_refl) as (_ & _ & H).
    exact H.
  - destruct (formatPairName_again "btc" "BTC" [] eq_refl) as [_ Hone].
    destruct (Hone eq_refl) as (_ & _ & H). exact H.
Defined.

Lemma pair_must_be_a_string_witness :
  getOpenOrders S2N N2S Sub Example.refusing 3 (VNum (Fin (inject_Z 5))) []
  = Some (Rejected TypeError, []) /\
  getMarkets N2S Example.refusing (VNum (Fin (inject_Z 5))) Example.stocked []
  = Throw TypeError.
Proof.
  destruct (pair_must_be_a_string S2N N2S Sub Example.refusing
              (VNum (Fin (inject_Z 5))) Example.stocked [] 3)
    as (Horders & Hmarkets & _).
  - intros s H. discriminate H.
  - reflexivity.
  - reflexivity.
  - split; [exact Horders|]. apply Hmarkets. reflexivity.
Defined.

Lemma formatNetworkName_fallback_witness :
  formatNetworkName table (VStr "eth") = Normal (VStr "ERC20") /\
  formatNetworkName table (VStr "sol") = Normal (VStr "sol").
Proof.
  split.
  - destruct (formatNetworkName_fallback table
                match table with VObj t => t | _ => [] end "eth" eq_refl)
      as (name & Hname & _ & Hcode & _).
    rewrite Hname. f_equal.
    exact (Hcode [("code", VStr "ERC20"); ("name", VStr "Ethereum")]%string
                 eq_refl).
  - destruct (formatNetworkName_fallback table
                match table with VObj t => t | _ => [] end "sol" eq_refl)
      as (name & Hname & Hnone & _).
    rewrite Hname. f_equal. exact (Hnone eq_refl).
Defined.

Lemma getBalances_records_witness :
  exists usdt eth,
    fst (getBalances S2N N2S Example.spot_account VUndef [])
    = Resolved (VArr [usdt; eth]) /\
    is_balance usdt /\ is_balance eth /\
    exists btc,
      fst (getBalances S2N N2S Example.spot_account (VBool false) [])
      = Resolved (VArr [btc; usdt; eth]) /\
      funded btc = false.
Proof.
  pose (records :=
          match fst (getBalances S2N N2S Example.spot_account VUndef []) with
          | Resolved (VArr l) => l
          | _ => []
          end).
  destruct (getBalances_records S2N N2S Example.spot_account VUndef []
              records eq_refl) as (Hrecords & all & Hall & _ & _).
  exists (nth 0 records VUndef), (nth 1 records VUndef).
  split; [reflexivity|].
  inversion Hrecords as [|? ? Husdt Hrest]; subst.
  inversion Hrest as [|? ? Heth _]; subst.
  split; [exact Husdt|]. split; [exact Heth|].
  exists (nth 0 all VUndef).
  vm_compute in Hall. injection Hall as <-. split; reflexivity.
Defined.



Lemma getOpenOrders_array_is_whole_pages_witness :
  exists n,
    1 <= n <= 2 /\
    (inject_Z 650 <=
     count (accumulated S2N N2S Sub Example.crowded Example.btc_usdt
                        [Example.total_query] n))%Q /\
    forall k, 1 <= k < n ->
      (count (accumulated S2N N2S Sub Example.crowded Example.btc_usdt
                          [Example.total_query] k) < inject_Z 650)%Q.
Proof.
  pose (run := getOpenOrders S2N N2S Sub Example.crowded 2 (VStr "btc_usdt") []).
  pose (orders := match run with
                  | Some (Resolved (VArr l), _) => l
                  | _ => []
                  end).
  pose (final := match run with
                 | Some (_, log) => log
                 | None => []
                 end).
  assert (Hrun : run = Some (Resolved (VArr orders), final))
    by (vm_compute; reflexivity).
  destruct (getOpenOrders_array_is_whole_pages S2N N2S Sub Example.crowded
              (VStr "btc_usdt") Example.btc_usdt
              (Example.details_answer (Example.num 650)) (Example.num 650)
              Example.total_query [] final (inject_Z 650) 2 orders
              eq_refl eq_refl eq_refl eq_refl eq_refl Hrun)
    as (n & Hn & Horders & _ & Hreached & Hbelow).
  cbn [app] in Horders, Hbelow.
  exists n. split; [exact Hn|]. split; [|exact Hbelow].
  rewrite <- Horders. exact Hreached.
Defined.

Lemma barren_page (k : nat) (log : calls) :
  fst (getOpenOrdersPage S2N N2S Sub Example.barren Example.btc_usdt
         (page_number k) log)
  = Resolved (VArr []).
Proof. reflexivity. Qed.

Lemma barren_gathers_nothing (log : calls) (k : nat) :
  accumulated S2N N2S Sub Example.barren Example.btc_usdt log k = [].
Proof.
  induction k as [|k IH]; [reflexivity|].
  cbn [accumulated]. rewrite IH. unfold page_orders, page_outcome.
  now rewrite barren_page.
Qed.

Lemma getOpenOrders_can_run_for_ever_witness :
  getOpenOrders S2N N2S Sub Example.barren 1000 (VStr "btc_usdt") [] = None.
Proof.
  apply (getOpenOrders_can_run_for_ever S2N N2S Sub Example.barren
           (VStr "btc_usdt") Example.btc_usdt
           (Example.details_answer (Example.num 5)) (Example.num 5)
           Example.total_query [] (inject_Z 5)
           eq_refl eq_refl eq_refl eq_refl eq_refl).
  intros k Hk. split.
  - unfold page_orders, page_outcome. now rewrite barren_page.
  - rewrite barren_gathers_nothing. reflexivity.
Defined.

Lemma merged_currencies_by_symbol_witness :
  exists entry,
    merge_currencies S2N N2S table Example.currencies_answer
                     Example.networks_answer
    = Normal [("BTC"%string, entry)] /\
    get entry "symbol" = Normal (VStr "BTC") /\
    get Example.btc_snapshot "BTC" = Normal entry.
Proof.
  pose (result := match Example.btc_snapshot with
                  | VObj props => props
                  | _ => []
                  end).
  destruct (merged_currencies_by_symbol S2N N2S table
              Example.currencies_answer Example.networks_answer result eq_refl)
    as [_ Hentries].
  exists (snd (hd (EmptyString, VUndef) result)).
  destruct (Hentries "BTC"%string (snd (hd (EmptyString, VUndef) result))
              (or_introl eq_refl)) as (_ & Hsymbol & _ & Hget).
  split; [reflexivity|]. split; [exact Hsymbol|exact Hget].
Defined.

Lemma merged_markets_by_pair_witness :
  exists entry,
    Example.markets_snapshot = VObj [("BTC/USDT"%string, entry)] /\
    get entry "pairReadable" = Normal (VStr "BTC/USDT") /\
    get entry "coin1" = Normal (VStr "BTC") /\
    get entry "coin2" = Normal (VStr "USDT").
Proof.
  pose (result := match Example.markets_snapshot with
                  | VObj props => props
                  | _ => []
                  end).
  destruct (merged_markets_by_pair N2S Example.getPrecision
              Example.markets_answer result eq_refl) as [_ Hentries].
  exists (snd (hd (EmptyString, VUndef) result)).
  destruct (Hentries "BTC/USDT"%string
              (snd (hd (EmptyString, VUndef) result)) (or_introl eq_refl))
    as (Hreadable & _ & _).
  split; [reflexivity|]. split; [exact Hreadable|]. split; reflexivity.
Defined.

Lemma getCurrencies_alone_effects_witness :
  getCurrencies_alone S2N N2S table Example.refusing
                      (VStr "BTC") (VBool true) Example.stocked []
  = Normal (VUndef, Example.stocked,
            [FameEXApi.currencies; FameEXApi.currenciesWithNetwork]) /\
  exchangeCurrencies Example.stocked = Example.btc_snapshot.
Proof.
  split; [reflexivity|].
  destruct (getCurrencies_alone_effects S2N N2S table Example.refusing
              (VStr "BTC") (VBool true) VUndef Example.stocked Example.stocked
              [] [FameEXApi.currencies; FameEXApi.currenciesWithNetwork]
              eq_refl eq_refl) as (_ & _ & _ & Hkept & _).
  exact (Hkept eq_refl).
Defined.

Lemma getMarkets_alone_effects_witness :
  exists info,
    getMarkets_alone N2S Example.getPrecision Example.refusing
                     (VStr "btc_usdt") Example.stocked []
    = Normal (info, Example.stocked, []) /\
    get info "pairPlain" = Normal (VStr "BTC_USDT").
Proof.
  pose (run := getMarkets_alone N2S Example.getPrecision Example.refusing
                                (VStr "btc_usdt") Example.stocked []).
  pose (info := match run with
                | Normal (v, _, _) => v
                | Throw _ => VUndef
                end).
  pose (m' := match run with
              | Normal (_, m, _) => m
              | Throw _ => Example.fresh
              end).
  pose (log' := match run with
                | Normal (_, _, l) => l
                | Throw _ => [FameEXApi.markets]
                end).
  destruct (getMarkets_alone_effects N2S Example.getPrecision Example.refusing
              (VStr "btc_usdt") info Example.stocked m' [] log'
              eq_refl eq_refl) as (Hcached & _).
  destruct (Hcached eq_refl) as [Hm Hlog].
  exists info. split; [|reflexivity].
  transitivity (Normal (info, m', log')); [reflexivity|].
  now rewrite Hm, Hlog.
Defined.

Lemma refreshed_currencies_are_served_witness :
  exists entry,
    get Example.btc_snapshot "BTC" = Normal entry /\
    currencyInfo N2S Example.refusing (VStr "BTC") Example.loaded
                 [FameEXApi.currencies; FameEXApi.currenciesWithNetwork]
    = Normal (Value entry, Example.loaded,
              [FameEXApi.currencies; FameEXApi.currenciesWithNetwork]).
Proof.
  pose (result := match Example.btc_snapshot with
                  | VObj props => props
                  | _ => []
                  end).
  destruct (refreshed_currencies_are_served S2N N2S table Example.catalog
              VUndef VUndef Example.fresh Example.loaded []
              [FameEXApi.currencies; FameEXApi.currenciesWithNetwork] result
              eq_refl (or_introl eq_refl) eq_refl)
    as [_ Hserved]; [discriminate|].
  exists (snd (hd (EmptyString, VUndef) result)). split; [reflexivity|].
  exact (Hserved "BTC"%string _ (or_introl eq_refl)).
Defined.

Lemma catalog_lookups_witness :
  currencyInfo N2S Example.refusing (VStr "btc") Example.stocked []
  = Normal (Value VUndef, Example.stocked, []) /\
  (exists entry,
     currencyInfo N2S Example.refusing (VStr "BTC") Example.stocked []
     = Normal (Value (VObj entry), Example.stocked, [])) /\
  (exists entry,
     marketInfo N2S Example.refusing (VStr "btc-usdt") Example.stocked []
     = Normal (Value (VObj entry), Example.stocked, [])).
Proof.
  destruct (catalog_lookups N2S Example.refusing "btc" "btc" "usdt" "-"
              match Example.btc_snapshot with VObj props => props | _ => [] end
              match Example.markets_snapshot with
              | VObj props => props
              | _ => []
              end
              Example.stocked [] eq_refl eq_refl eq_refl eq_refl)
    as (Hlower & _ & _ & Hupper & Hmarket).
  - repeat constructor.
  - discriminate.
  - reflexivity.
  - reflexivity.
  - reflexivity.
  - split; [exact Hlower|]. split.
    + vm_compute in Hupper. eexists. exact Hupper.
    + vm_compute in Hmarket. eexists. exact Hmarket.
Defined.

Lemma refreshed_markets_are_served_witness :
  exists entry,
    Example.markets_snapshot = VObj [("BTC/USDT"%string, entry)] /\
    marketInfo N2S Example.refusing (VStr "Btc_Usdt") Example.stocked []
    = Normal (Value entry, Example.stocked, []).
Proof.
  pose (result := match Example.markets_snapshot with
                  | VObj props => props
                  | _ => []
                  end).
  exists (snd (hd (EmptyString, VUndef) result)). split; [reflexivity|].
  apply (refreshed_markets_are_served N2S Example.getPrecision
           Example.refusing Example.markets_answer "Btc" "Usdt" "_" result);
    try reflexivity.
  left. reflexivity.
Defined.

Lemma refreshes_do_not_overlap_at_rest_witness :
  exists s,
    run S2N N2S table Example.catalog
        (events_of [ Arrive VUndef VUndef;
                     Arrive (VStr "BTC") (VBool true);
                     Complete 0;
                     Arrive (VStr "BTC") (VBool true);
                     Arrive (VStr "BTC") (VBool true) ])
        Example.idle = Some s /\
    List.length (refreshing s) = 1 /\
    List.length (issued s) = 4 /\
    at_rest s.
Proof.
  eexists. split; [reflexivity|]. split; [reflexivity|].
  split; [reflexivity|].
  refine (proj1 (refreshes_do_not_overlap_at_rest S2N N2S table Example.catalog
                   [ Arrive VUndef VUndef;
                     Arrive (VStr "BTC") (VBool true);
                     Complete 0;
                     Arrive (VStr "BTC") (VBool true);
                     Arrive (VStr "BTC") (VBool true) ]
                   Example.idle _ _ eq_refl)).
  unfold at_rest. cbn. repeat split; auto; discriminate.
Defined.

End MoreRuns.
